(** * Traffic-incident processor: deduplication, normalization, export, cache

    A shallow embedding of [Tarea 2/processor/processor.py]
    (class [TrafficDataProcessor]) and of the properties its specification
    states about it.

    Conventions of the embedding
    - A Python [float] is an IEEE binary64 number: Rocq's primitive [float].
    - A Python [str] is a [string] whose characters are read as code points
      (the Latin-1 range, which holds every character of the mapping tables
      of the source).
    - A [datetime] is a wall-clock reading in microseconds together with its
      optional UTC offset; a [timedelta] is a number of microseconds.
    - An incident is a [dict] with the columns of table [traffic_incidents];
      each key is absent, present with value [None], or present with a value.
    - An exception is a value of type [exn]; code that may raise returns a
      [result].
    - The store, the files, the cache and the log are the fields of a
      [world] that each stage takes and returns; what a run reads from
      outside (clocks, reachability of the store and of the cache, the
      effect of the shell commands) is an [env]. A statement that reaches
      the store succeeds once the connection is open, and a shell command
      always returns. *)

From Stdlib Require Import ZArith String Ascii List Bool Lia Floats.
From stdpp Require Import base option list gmap strings sorting pretty.

#[local] Set Warnings "-inexact-float".

Local Open Scope string_scope.
Local Open Scope Z_scope.

(** ** Exceptions *)

Inductive exn : Type :=
| KeyError
| TypeError
| AttributeError
| ValueError.

Inductive result (A : Type) : Type :=
| Ok (a : A)
| Raise (e : exn).

Arguments Ok {A} a.
Arguments Raise {A} e.

Definition bind {A B : Type} (r : result A) (k : A -> result B) : result B :=
  match r with
  | Ok a => k a
  | Raise e => Raise e
  end.

Notation "'let!' x ':=' r 'in' k" := (bind r (fun x => k))
  (at level 10, x name, r at level 100, k at level 200).

(** [try: body except: handler] for a body that computes a value. *)
Definition try_except {A : Type} (body : result A) (handler : A) : A :=
  match body with
  | Ok a => a
  | Raise _ => handler
  end.

(** ** Python strings *)

Module Str.

(** [c.isspace()] on the code points below 256. *)
Definition isspace (c : ascii) : bool :=
  let n := N_of_ascii c in
  ((9 <=? n) && (n <=? 13) || (28 <=? n) && (n <=? 32)
   || (n =? 133) || (n =? 160))%N.

Fixpoint lstrip (s : string) : string :=
  match s with
  | String c s' => if isspace c then lstrip s' else s
  | EmptyString => EmptyString
  end.

Fixpoint rev_append (s acc : string) : string :=
  match s with
  | String c s' => rev_append s' (String c acc)
  | EmptyString => acc
  end.

Definition rev (s : string) : string := rev_append s EmptyString.

Definition rstrip (s : string) : string := rev (lstrip (rev s)).

(** [s.strip()] *)
Definition strip (s : string) : string := rstrip (lstrip s).

Definition lower_char (c : ascii) : ascii :=
  let n := N_of_ascii c in
  if ((65 <=? n) && (n <=? 90)
      || (192 <=? n) && (n <=? 222) && negb (n =? 215))%N
  then ascii_of_N (n + 32) else c.

(** [s.lower()] *)
Fixpoint lower (s : string) : string :=
  match s with
  | String c s' => String (lower_char c) (lower s')
  | EmptyString => EmptyString
  end.

(** [s.replace(c, by)] for a one-character pattern [c]. *)
Fixpoint replace (c : ascii) (by_ : string) (s : string) : string :=
  match s with
  | String d s' =>
      if Ascii.eqb d c then by_ ++ replace c by_ s'
      else String d (replace c by_ s')
  | EmptyString => EmptyString
  end.

Fixpoint contains (c : ascii) (s : string) : bool :=
  match s with
  | String d s' => Ascii.eqb d c || contains c s'
  | EmptyString => false
  end.

(** [a < b] on strings: code point by code point. *)
Fixpoint ltb (a b : string) : bool :=
  match a, b with
  | EmptyString, EmptyString => false
  | EmptyString, String _ _ => true
  | String _ _, EmptyString => false
  | String x a', String y b' =>
      if (N_of_ascii x <? N_of_ascii y)%N then true
      else if (N_of_ascii y <? N_of_ascii x)%N then false
      else ltb a' b'
  end.

(** [not s] *)
Definition is_empty (s : string) : bool :=
  match s with
  | EmptyString => true
  | String _ _ => false
  end.

End Str.

(** ** datetime *)

(** [wall] is the wall-clock reading in microseconds since the epoch;
    [utcoffset] is [None] for a naive datetime and the offset of its
    [tzinfo], in microseconds, for an aware one. *)
Record datetime : Type := mkDatetime {
  wall : Z;
  utcoffset : option Z
}.

(** [a - b] as a [timedelta] in microseconds. Two naive datetimes subtract
    their wall clocks, two aware ones their UTC instants; mixing them raises
    [TypeError]. *)
Definition dt_sub (a b : datetime) : result Z :=
  match utcoffset a, utcoffset b with
  | None, None => Ok (wall a - wall b)
  | Some oa, Some ob => Ok ((wall a - oa) - (wall b - ob))
  | _, _ => Raise TypeError
  end.

Definition microseconds_per_second : Z := 1000000.
Definition microseconds_per_day : Z := 86400 * microseconds_per_second.

(** [td.days]: a timedelta is normalised with [0 <= seconds < 86400], so the
    day count is the floor. *)
Definition td_days (td : Z) : Z := td / microseconds_per_day.

(** ** Incidents as dicts *)

Inductive field (A : Type) : Type :=
| Missing
| PyNone
| Val (a : A).

Arguments Missing {A}.
Arguments PyNone {A}.
Arguments Val {A} a.

(** [d.get(key)] *)
Definition get {A : Type} (f : field A) : option A :=
  match f with
  | Val a => Some a
  | _ => None
  end.

(** [d.get(key, default)]: the default stands for a missing key only. *)
Definition get_default {A : Type} (f : field A) (default : A) : option A :=
  match f with
  | Missing => Some default
  | PyNone => None
  | Val a => Some a
  end.

(** [d[key]] *)
Definition subscript {A : Type} (f : field A) : result (option A) :=
  match f with
  | Missing => Raise KeyError
  | PyNone => Ok None
  | Val a => Ok (Some a)
  end.

(** The value under key [timestamp]: a [str] or a [datetime]. *)
Inductive tsval : Type :=
| TStr (s : string)
| TDate (d : datetime).

(** The keys of the dict bear the names of the columns of the table (module
    [Row] below), so the record lives in a module of its own. *)
Module Incident.

Record incident : Type := mkIncident {
  incident_id : field string;
  incident_type : field string;
  description : field string;
  latitude : field float;
  longitude : field float;
  street : field string;
  city : field string;
  comuna : field string;
  severity : field Z;
  timestamp : field tsval;
  source : field string
}.

End Incident.

Export Incident.

(** Truth value of [d.get(key)]. *)
Definition truthy_str (f : field string) : bool :=
  match get f with
  | Some s => negb (Str.is_empty s)
  | None => false
  end.

Definition truthy_float (f : field float) : bool :=
  match get f with
  | Some x => negb (x =? 0)%float
  | None => false
  end.

Definition truthy_ts (f : field tsval) : bool :=
  match get f with
  | Some (TStr s) => negb (Str.is_empty s)
  | Some (TDate _) => true
  | None => false
  end.

(** ** Logging *)

Inductive level : Type := INFO | WARNING | ERROR.

(** A log record: its level and the text of its message, the interpolated
    values left as [{}]. *)
Definition log_record : Type := level * string.

(** ** The mapping tables of [homogenize_incidents] *)

(** The letters of the tables outside ASCII, by code point: n with tilde
    (241), its capital (209), u with acute (250) and e with acute (233). *)
Definition n_tilde : string := String "241" "".
Definition N_tilde : string := String "209" "".
Definition u_acute : string := String "250" "".
Definition e_acute : string := String "233" "".

Definition type_mapping : gmap string string :=
  list_to_map
    [ ("accidente", "ACCIDENTE");
      ("atasco", "ATASCO");
      ("construccion", "CONSTRUCCION");
      ("peligro", "PELIGRO");
      ("clima", "CLIMA");
      ("alerta", "ALERTA");
      ("otro", "OTRO") ].

Definition comuna_mapping : gmap string string :=
  list_to_map
    [ ("santiago", "Santiago");
      ("las condes", "Las Condes");
      ("providencia", "Providencia");
      (n_tilde ++ "u" ++ n_tilde ++ "oa", N_tilde ++ "u" ++ n_tilde ++ "oa");
      ("maip" ++ u_acute, "Maip" ++ u_acute);
      ("maipu", "Maip" ++ u_acute);
      ("la florida", "La Florida");
      ("puente alto", "Puente Alto");
      ("pe" ++ n_tilde ++ "alol" ++ e_acute ++ "n",
       "Pe" ++ n_tilde ++ "alol" ++ e_acute ++ "n");
      ("penalolen", "Pe" ++ n_tilde ++ "alol" ++ e_acute ++ "n") ].

(** A value stored under a key of a new dict. *)
Definition to_field {A : Type} (v : option A) : field A :=
  match v with
  | Some a => Val a
  | None => PyNone
  end.

(** [v.method()] for a string method: [None] has no such attribute. *)
Definition str_method (method : string -> string) (v : option string)
  : result string :=
  match v with
  | Some s => Ok (method s)
  | None => Raise AttributeError
  end.

(** A stable insertion sort: [x], which comes first in the input, goes
    before the first element that is not strictly less than it. *)
Fixpoint insert_sorted {A : Type} (lt : A -> A -> bool) (x : A) (l : list A)
  : list A :=
  match l with
  | [] => [x]
  | y :: l' => if lt y x then y :: insert_sorted lt x l' else x :: l
  end.

Fixpoint stable_sort {A : Type} (lt : A -> A -> bool) (l : list A) : list A :=
  match l with
  | [] => []
  | x :: l' => insert_sorted lt x (stable_sort lt l')
  end.

(** ** The raw store: table [traffic_incidents] *)

Module Row.

(** One row; a nullable column is an [option]. [timestamp] is the instant in
    microseconds (UTC). *)
Record t : Type := mk {
  incident_id : string;
  incident_type : string;
  description : option string;
  latitude : float;
  longitude : float;
  street : option string;
  city : option string;
  comuna : option string;
  severity : option Z;
  timestamp : Z;
  source : option string;
  processed : bool
}.

Definition set_processed (r : t) : t :=
  mk (incident_id r) (incident_type r) (description r) (latitude r)
     (longitude r) (street r) (city r) (comuna r) (severity r)
     (timestamp r) (source r) true.

End Row.

(** The dict a [RealDictCursor] builds from a row; [off] is the UTC offset of
    the session's time zone, which every [datetime] of the result carries. *)
Definition dict_of_row (off : Z) (r : Row.t) : incident :=
  {| incident_id := Val (Row.incident_id r);
     incident_type := Val (Row.incident_type r);
     description := to_field (Row.description r);
     latitude := Val (Row.latitude r);
     longitude := Val (Row.longitude r);
     street := to_field (Row.street r);
     city := to_field (Row.city r);
     comuna := to_field (Row.comuna r);
     severity := to_field (Row.severity r);
     timestamp :=
       Val (TDate {| wall := Row.timestamp r + off; utcoffset := Some off |});
     source := to_field (Row.source r) |}.

(** [... ORDER BY timestamp DESC]; rows of equal timestamp stay in table
    order. *)
Definition order_by_timestamp_desc (rows : list Row.t) : list Row.t :=
  stable_sort (fun a b => Row.timestamp b <? Row.timestamp a) rows.

(** [SELECT * FROM traffic_incidents WHERE processed = FALSE
     ORDER BY timestamp DESC] *)
Definition select_unprocessed (table : list Row.t) : list Row.t :=
  order_by_timestamp_desc (filter (fun r => Row.processed r = false) table).

(** [SELECT ... WHERE processed = TRUE ORDER BY timestamp DESC LIMIT 10000] *)
Definition select_processed (table : list Row.t) : list Row.t :=
  take (Z.to_nat 10000)
    (order_by_timestamp_desc (filter (fun r => Row.processed r = true) table)).

(** [x = ANY(ids)]; a [None] among [ids] matches nothing. *)
Definition any_eq (x : string) (ids : list (option string)) : bool :=
  existsb (fun i => match i with
                    | Some y => String.eqb x y
                    | None => false
                    end) ids.

(** [UPDATE traffic_incidents SET processed = TRUE
     WHERE incident_id = ANY(ids)] *)
Definition update_processed (ids : list (option string)) (table : list Row.t)
  : list Row.t :=
  map (fun r => if any_eq (Row.incident_id r) ids
                then Row.set_processed r else r) table.

(** ** The cache (Redis) *)

Record ProcessingMetrics : Type := mkMetrics {
  total_records : Z;
  filtered_records : Z;
  processing_time : float;
  errors_count : Z;
  metrics_timestamp : Z
}.

(** The report of [generate_processing_report]: the keys [processing_metrics]
    (the five fields of the metrics), [cache_statistics] (per key: [exists]
    and [ttl]) and [database_statistics] (the two row counts, absent when the
    store cannot be reached). The ratios computed from these fields
    ([filter_rate], [processing_rate], [records_per_second]) and
    [top_incident_types] are not kept. *)
Record report : Type := mkReport {
  processing_metrics : ProcessingMetrics;
  cache_statistics : list (string * (bool * Z));
  database_statistics : option (Z * Z)
}.

(** What a cache key holds: the text of a result file, the ISO text of an
    instant, or the JSON text of a report. *)
Inductive payload : Type :=
| Text (s : string)
| IsoTime (instant : Z)
| Json (r : report).

(** A key holds its value and the time, in seconds, at which it expires. An
    entry past its expiry stays in the map and is read as absent. *)
Definition SETEX (t : Z) (key : string) (ttl : Z) (v : payload)
    (r : gmap string (payload * Z)) : gmap string (payload * Z) :=
  <[key := (v, t + ttl)]> r.

Definition GET (t : Z) (key : string) (r : gmap string (payload * Z))
  : option payload :=
  match r !! key with
  | Some (v, expiry) => if t <? expiry then Some v else None
  | None => None
  end.

Definition EXISTS (t : Z) (key : string) (r : gmap string (payload * Z))
  : bool :=
  match GET t key r with
  | Some _ => true
  | None => false
  end.

Definition TTL (t : Z) (key : string) (r : gmap string (payload * Z)) : Z :=
  match r !! key with
  | Some (_, expiry) => if t <? expiry then expiry - t else -2
  | None => -2
  end.

(** ** The csv module, as [DataFrame.to_csv] and a reader use it

    Default dialect: the delimiter is a comma, the quote character is the
    double quote (code 34), a quote inside a quoted field is doubled, and a
    field is quoted only when it holds a delimiter, a quote or a line
    break. *)

Module Csv.

Definition quotechar : ascii := "034"%char.
Definition delimiter : ascii := ","%char.
Definition LF : ascii := "010"%char.
Definition CR : ascii := "013"%char.

Definition is_newline (c : ascii) : bool := Ascii.eqb c LF || Ascii.eqb c CR.

Definition needs_quotes (s : string) : bool :=
  Str.contains delimiter s || Str.contains quotechar s
  || Str.contains LF s || Str.contains CR s.

Definition quote_field (s : string) : string :=
  if needs_quotes s
  then String quotechar
         (Str.replace quotechar (String quotechar (String quotechar "")) s
          ++ String quotechar "")
  else s.

Fixpoint join (fields : list string) : string :=
  match fields with
  | [] => ""
  | [f] => f
  | f :: rest => f ++ String delimiter (join rest)
  end.

(** The text of one record, without its line terminator. A record of one
    empty field is written as two quote characters. *)
Definition writerow (fields : list string) : string :=
  match fields with
  | [""] => String quotechar (String quotechar "")
  | _ => join (map quote_field fields)
  end.

Inductive state : Type :=
| START_RECORD
| START_FIELD
| IN_FIELD
| IN_QUOTED_FIELD
| QUOTE_IN_QUOTED_FIELD.

Definition snoc (s : string) (c : ascii) : string := s ++ String c "".

(** The reader's automaton over the text of a file: [field] is the field
    being read, [fields] the fields of the current record read so far. A
    line break (one [LF] or [CR]) outside quotes ends the record; an empty
    line is an empty record. *)
Fixpoint read (st : state) (field : string) (fields : list string)
    (s : string) : list (list string) :=
  match s with
  | EmptyString =>
      match st with
      | START_RECORD => []
      | _ => [(fields ++ [field])%list]
      end
  | String c s' =>
      match st with
      | START_RECORD =>
          if is_newline c then [] :: read START_RECORD "" [] s'
          else if Ascii.eqb c quotechar then read IN_QUOTED_FIELD "" fields s'
          else if Ascii.eqb c delimiter
               then read START_FIELD "" (fields ++ [""]) s'
          else read IN_FIELD (String c "") fields s'
      | START_FIELD =>
          if is_newline c
          then (fields ++ [field])%list :: read START_RECORD "" [] s'
          else if Ascii.eqb c quotechar then read IN_QUOTED_FIELD "" fields s'
          else if Ascii.eqb c delimiter
               then read START_FIELD "" (fields ++ [""]) s'
          else read IN_FIELD (String c "") fields s'
      | IN_FIELD =>
          if is_newline c
          then (fields ++ [field])%list :: read START_RECORD "" [] s'
          else if Ascii.eqb c delimiter
               then read START_FIELD "" (fields ++ [field]) s'
          else read IN_FIELD (snoc field c) fields s'
      | IN_QUOTED_FIELD =>
          if Ascii.eqb c quotechar
          then read QUOTE_IN_QUOTED_FIELD field fields s'
          else read IN_QUOTED_FIELD (snoc field c) fields s'
      | QUOTE_IN_QUOTED_FIELD =>
          if Ascii.eqb c quotechar
          then read IN_QUOTED_FIELD (snoc field c) fields s'
          else if Ascii.eqb c delimiter
               then read START_FIELD "" (fields ++ [field]) s'
          else if is_newline c
               then (fields ++ [field])%list :: read START_RECORD "" [] s'
          else read IN_FIELD (snoc field c) fields s'
      end
  end.

(** [list(csv.reader(...))] on the text of a file. *)
Definition reader (s : string) : list (list string) :=
  read START_RECORD "" [] s.

End Csv.

(** ** The state the processor acts on, and its environment *)

Record world : Type := mkWorld {
  db : list Row.t;
  files : gmap string string;
  redis : gmap string (payload * Z);
  log : list log_record
}.

Definition logger (lvl : level) (msg : string) (w : world) : world :=
  mkWorld (db w) (files w) (redis w) (log w ++ [(lvl, msg)]).

Definition set_db (table : list Row.t) (w : world) : world :=
  mkWorld table (files w) (redis w) (log w).

Definition set_files (fs : gmap string string) (w : world) : world :=
  mkWorld (db w) fs (redis w) (log w).

Definition set_redis (r : gmap string (payload * Z)) (w : world) : world :=
  mkWorld (db w) (files w) r (log w).

(** What one run reads from outside: whether the store and the cache can be
    reached, the session's UTC offset, the clocks ([now]: the wall clock of
    [datetime.now()] in microseconds; [unix_time]: [int(time.time())], also
    the clock of the cache; [elapsed]: the duration the run measures at its
    end) and the effect of a shell command on the files, with its return
    code. A run reads each clock once: every record of a batch is validated
    at the same [now]. *)
Record env : Type := mkEnv {
  db_up : bool;
  db_utcoffset : Z;
  redis_up : bool;
  now : Z;
  unix_time : Z;
  elapsed : float;
  run_command : string -> gmap string string -> Z * gmap string string
}.

(** How [DataFrame.to_csv] prints the cells that are not strings. *)
Record pandas_format : Type := mkFormat {
  fmt_float : float -> string;
  fmt_severity : option Z -> string;
  fmt_timestamp : Z -> string
}.

Section Processor.

(** [datetime.fromisoformat]: [None] stands for [ValueError]. *)
Variable fromisoformat : string -> option datetime.

(** [isinstance(t, str)] and, for a string, the parse of lines 121-122. *)
Definition parse_timestamp (t : tsval) : result datetime :=
  match t with
  | TStr s =>
      match fromisoformat (Str.replace "Z" "+00:00" s) with
      | Some d => Ok d
      | None => Raise ValueError
      end
  | TDate d => Ok d
  end.

(** ** Validator: [is_valid_incident] *)

Definition in_bounds (lat lon : float) : bool :=
  ((-33.8 <=? lat) && (lat <=? -33.2) && (-71.0 <=? lon) && (lon <=? -70.3))%float.

(** [now] is the wall clock read by [datetime.now()]. *)
Definition is_valid_incident (now : Z) (inc : incident) : result bool :=
  if negb (truthy_str (incident_id inc) && truthy_str (incident_type inc)
           && truthy_float (latitude inc) && truthy_float (longitude inc)
           && truthy_ts (timestamp inc))
  then Ok false
  else
    let! lat := subscript (latitude inc) in
    let! lon := subscript (longitude inc) in
    match lat, lon with
    | Some lat, Some lon =>
        if negb (in_bounds lat lon) then Ok false
        else
          match get_default (description inc) "" with
          | None => Raise AttributeError
          | Some d =>
              if (String.length (Str.strip d) <? 3)%nat then Ok false
              else
                Ok (try_except
                  (let! t := subscript (timestamp inc) in
                   match t with
                   | None => Raise AttributeError
                   | Some t =>
                       let! incident_time := parse_timestamp t in
                       let time_diff := now - wall incident_time in
                       if (7 <? td_days time_diff)%Z then Ok false else Ok true
                   end)
                  false)
          end
    | _, _ => Raise TypeError
    end.

(** ** Deduplicator: [are_incidents_duplicate], [remove_duplicates] *)

Definition duplicate_distance_threshold : float := 0.001%float.
Definition duplicate_time_threshold : Z := 300.

(** [abs(a - b)] on two values read from the dicts. *)
Definition abs_diff (a b : option float) : result float :=
  match a, b with
  | Some x, Some y => Ok (abs (x - y))%float
  | _, _ => Raise TypeError
  end.

(** [a != b] on two values read under key [incident_type]. *)
Definition str_ne (a b : option string) : bool :=
  match a, b with
  | Some x, Some y => negb (String.eqb x y)
  | None, None => false
  | _, _ => true
  end.

(** Lines 166-169: a [str] is parsed, anything else is kept. *)
Definition to_datetime (t : option tsval) : result (option datetime) :=
  match t with
  | Some t => let! d := parse_timestamp t in Ok (Some d)
  | None => Ok None
  end.

(** [(time1 - time2)] of line 171. *)
Definition time_sub (a b : option datetime) : result Z :=
  match a, b with
  | Some x, Some y => dt_sub x y
  | _, _ => Raise TypeError
  end.

(** [abs(td.total_seconds()) > secs] for an integer [secs].
    [total_seconds] is the correctly rounded quotient of the microsecond
    count by 10^6; rounding is monotone and keeps an integer number of
    seconds, so the test is the one on microseconds. *)
Definition total_seconds_gt (td : Z) (secs : Z) : bool :=
  secs * microseconds_per_second <? Z.abs td.

Definition are_incidents_duplicate (inc1 inc2 : incident) : result bool :=
  let! type1 := subscript (incident_type inc1) in
  let! type2 := subscript (incident_type inc2) in
  if str_ne type1 type2 then Ok false
  else
    let! lat1 := subscript (latitude inc1) in
    let! lat2 := subscript (latitude inc2) in
    let! lat_diff := abs_diff lat1 lat2 in
    let! lon1 := subscript (longitude inc1) in
    let! lon2 := subscript (longitude inc2) in
    let! lon_diff := abs_diff lon1 lon2 in
    if ((duplicate_distance_threshold <? lat_diff)
        || (duplicate_distance_threshold <? lon_diff))%float
    then Ok false
    else
      Ok (try_except
            (let! time1 := subscript (timestamp inc1) in
             let! time2 := subscript (timestamp inc2) in
             let! time1 := to_datetime time1 in
             let! time2 := to_datetime time2 in
             let! td := time_sub time1 time2 in
             if total_seconds_gt td duplicate_time_threshold
             then Ok false else Ok true)
            false).

(** [a < b] on two sort keys [x['timestamp']]. *)
Definition key_lt (a b : option tsval) : result bool :=
  match a, b with
  | Some (TStr x), Some (TStr y) => Ok (Str.ltb x y)
  | Some (TDate x), Some (TDate y) => let! td := dt_sub x y in Ok (td <? 0)
  | _, _ => Raise TypeError
  end.

(** [sorted(incidents, key=lambda x: x['timestamp'])]. The keys are computed
    first; the sort is stable and compares keys with [<] only. A comparison
    sort of two or more keys succeeds exactly when every two of them can be
    compared, and then returns the one stable arrangement: insertion sort
    computes both. *)
Fixpoint decorate (incidents : list incident)
  : result (list (option tsval * incident)) :=
  match incidents with
  | [] => Ok []
  | x :: rest =>
      let! k := subscript (timestamp x) in
      let! r := decorate rest in
      Ok ((k, x) :: r)
  end.

Fixpoint insert_by_key (p : option tsval * incident)
    (l : list (option tsval * incident))
  : result (list (option tsval * incident)) :=
  match l with
  | [] => Ok [p]
  | q :: l' =>
      let! lt := key_lt (fst q) (fst p) in
      if lt then (let! r := insert_by_key p l' in Ok (q :: r))
      else Ok (p :: l)
  end.

Fixpoint sort_by_key (l : list (option tsval * incident))
  : result (list (option tsval * incident)) :=
  match l with
  | [] => Ok []
  | p :: l' => let! s := sort_by_key l' in insert_by_key p s
  end.

Definition sorted_by_timestamp (incidents : list incident)
  : result (list incident) :=
  let! keyed := decorate incidents in
  let! s := sort_by_key keyed in
  Ok (map snd s).

(** The inner loop of lines 142-145. *)
Fixpoint is_duplicate_of_any (inc : incident) (deduplicated : list incident)
  : result bool :=
  match deduplicated with
  | [] => Ok false
  | existing :: rest =>
      let! d := are_incidents_duplicate inc existing in
      if d then Ok true else is_duplicate_of_any inc rest
  end.

(** The outer loop of lines 139-148, from the current [deduplicated]. *)
Fixpoint dedup_loop (sorted_incidents deduplicated : list incident)
  : result (list incident) :=
  match sorted_incidents with
  | [] => Ok deduplicated
  | inc :: rest =>
      let! is_duplicate := is_duplicate_of_any inc deduplicated in
      dedup_loop rest
        (if is_duplicate then deduplicated else deduplicated ++ [inc])
  end.

Definition remove_duplicates (incidents : list incident)
  : result (list incident) :=
  match incidents with
  | [] => Ok incidents
  | _ =>
      let! sorted_incidents := sorted_by_timestamp incidents in
      dedup_loop sorted_incidents []
  end.

(** ** Normalizer: [homogenize_incidents] *)

(** The builtin [round(x, 6)] on a float. *)
Variable round6 : float -> float.

(** [round(v, 6)] on a value read from the dict. *)
Definition round_coordinate (v : option float) : result float :=
  match v with
  | Some x => Ok (round6 x)
  | None => Raise TypeError
  end.

(** Lines 217-219. *)
Definition rescale_severity (v : option Z) : result Z :=
  match v with
  | Some severity =>
      Ok (if 10 <? severity then Z.min (severity / 10) 10 else severity)
  | None => Raise TypeError
  end.

(** The body of the [try] of lines 206-235, for one incident. *)
Definition homogenize_incident (inc : incident) : result incident :=
  let! incident_type_ :=
    str_method Str.lower (get_default (incident_type inc) "") in
  let standardized_type := default "OTRO" (type_mapping !! incident_type_) in
  let! comuna_ :=
    str_method (fun s => Str.strip (Str.lower s))
      (get_default (comuna inc) "") in
  let standardized_comuna :=
    match comuna_mapping !! comuna_ with
    | Some c => Val c
    | None => to_field (get_default (comuna inc) "")
    end in
  let! description_ :=
    str_method Str.strip (get_default (description inc) "") in
  let description_ :=
    if Str.is_empty description_
    then "Incidente de tipo " ++ standardized_type
    else description_ in
  let! severity_ := rescale_severity (get_default (severity inc) 0) in
  let! id := subscript (incident_id inc) in
  let! lat := subscript (latitude inc) in
  let! lat := round_coordinate lat in
  let! lon := subscript (longitude inc) in
  let! lon := round_coordinate lon in
  let! street_ := str_method Str.strip (get_default (street inc) "") in
  let! city_ := str_method Str.strip (get_default (city inc) "") in
  let! ts := subscript (timestamp inc) in
  Ok {| incident_id := to_field id;
        incident_type := Val standardized_type;
        description := Val description_;
        latitude := Val lat;
        longitude := Val lon;
        street := Val street_;
        city := Val city_;
        comuna := standardized_comuna;
        severity := Val severity_;
        timestamp := to_field ts;
        source := to_field (get_default (source inc) "waze") |}.

(** The loop: an incident whose body raises is logged and skipped. The
    result is the list [homogenized] and the records logged. *)
Fixpoint homogenize_incidents (incidents : list incident)
  : list incident * list log_record :=
  match incidents with
  | [] => ([], [])
  | inc :: rest =>
      let '(homogenized, logged) := homogenize_incidents rest in
      match homogenize_incident inc with
      | Ok h => (h :: homogenized, logged)
      | Raise _ =>
          (homogenized, (ERROR, "Error homogenizing incident {}: {}") :: logged)
      end
  end.

(** ** The stages that act on the world *)

Variable fmt : pandas_format.

(** The loop of lines 77-79. *)
Fixpoint filter_valid (now_ : Z) (raw_incidents : list incident)
  : result (list incident) :=
  match raw_incidents with
  | [] => Ok []
  | inc :: rest =>
      let! v := is_valid_incident now_ inc in
      let! filtered := filter_valid now_ rest in
      Ok (if v then inc :: filtered else filtered)
  end.

Definition len {A : Type} (l : list A) : Z := Z.of_nat (length l).

(** [filter_and_clean_data]: the new world and the pair returned. *)
Definition filter_and_clean_data (e : env) (w : world) : world * (Z * Z) :=
  if negb (db_up e)
  then (logger ERROR "Database connection error: {}" w, (0, 0))
  else
    let raw_incidents :=
      map (dict_of_row (db_utcoffset e)) (select_unprocessed (db w)) in
    let w := logger INFO "Found {} unprocessed incidents" w in
    match raw_incidents with
    | [] => (w, (0, 0))
    | _ =>
        match filter_valid (now e) raw_incidents with
        | Raise _ =>
            (logger ERROR "Error in filtering and cleaning: {}" w, (0, 0))
        | Ok filtered_incidents =>
            let w := logger INFO "Filtered to {} valid incidents" w in
            match remove_duplicates filtered_incidents with
            | Raise _ =>
                (logger ERROR "Error in filtering and cleaning: {}" w, (0, 0))
            | Ok deduplicated_incidents =>
                let w := logger INFO "After deduplication: {} incidents" w in
                let '(homogenized_incidents, logged) :=
                  homogenize_incidents deduplicated_incidents in
                let w := mkWorld (db w) (files w) (redis w) (log w ++ logged) in
                (* every homogenized dict has the key [incident_id] *)
                let incident_ids :=
                  map (fun inc => get (incident_id inc))
                    homogenized_incidents in
                let w :=
                  match incident_ids with
                  | [] => w
                  | _ => set_db (update_processed incident_ids (db w)) w
                  end in
                (w, (len raw_incidents, len homogenized_incidents))
            end
        end
    end.

(** [fillna('')] on a text cell. *)
Definition fillna (v : option string) : string := default "" v.

Definition double_quotes (s : string) : string :=
  Str.replace Csv.quotechar
    (String Csv.quotechar (String Csv.quotechar "")) s.

(** The cells of one exported row, after lines 270-272, column by column. *)
Definition export_cells (r : Row.t) : list string :=
  [ Row.incident_id r;
    Row.incident_type r;
    double_quotes (fillna (Row.description r));
    fmt_float fmt (Row.latitude r);
    fmt_float fmt (Row.longitude r);
    double_quotes (fillna (Row.street r));
    fillna (Row.city r);
    fillna (Row.comuna r);
    fmt_severity fmt (Row.severity r);
    fmt_timestamp fmt (Row.timestamp r);
    fillna (Row.source r) ].

Definition csv_header : list string :=
  [ "incident_id"; "incident_type"; "description"; "latitude"; "longitude";
    "street"; "city"; "comuna"; "severity"; "timestamp"; "source" ].

Definition newline : string := String Csv.LF "".

(** [df.to_csv(csv_path, index=False, encoding='utf-8')]: the header and one
    line per row. *)
Definition to_csv (rows : list Row.t) : string :=
  Csv.writerow csv_header ++ newline
  ++ String.concat ""
       (map (fun r => Csv.writerow (export_cells r) ++ newline) rows).

(** [export_for_pig_processing]: the new world and the path returned. *)
Definition export_for_pig_processing (e : env) (w : world) : world * string :=
  if negb (db_up e)
  then (logger ERROR "Database connection error: {}" w, "")
  else
    let incidents := select_processed (db w) in
    match incidents with
    | [] => (logger WARNING "No processed incidents found for export" w, "")
    | _ =>
        let csv_filename :=
          "processed_incidents_" ++ pretty (unix_time e) ++ ".csv" in
        let csv_path := "/app/data/" ++ csv_filename in
        let w := set_files (<[csv_path := to_csv incidents]> (files w)) w in
        (logger INFO "Exported {} incidents to {}" w, csv_path)
    end.

(** [os.path.exists] *)
Definition path_exists (path : string) (fs : gmap string string) : bool :=
  match fs !! path with
  | Some _ => true
  | None => false
  end.

(** [run_pig_analysis]: the new world and the flag returned. *)
Definition run_pig_analysis (e : env) (csv_path : string) (w : world)
  : world * bool :=
  if Str.is_empty csv_path || negb (path_exists csv_path (files w))
  then (logger ERROR "CSV file not found for Pig processing" w, false)
  else
    let hdfs_cmd := "hdfs dfs -put -f " ++ csv_path ++ " /data/" in
    let '(returncode, fs) := run_command e hdfs_cmd (files w) in
    let w := set_files fs w in
    if negb (returncode =? 0)
    then (logger ERROR "Failed to copy data to HDFS: {}" w, false)
    else
      let pig_cmd := "pig -f /pig_scripts/traffic_analysis.pig" in
      let w := logger INFO "Starting Apache Pig analysis..." w in
      let '(returncode, fs) := run_command e pig_cmd (files w) in
      let w := set_files fs w in
      if returncode =? 0
      then
        let w :=
          logger INFO "Pig analysis completed successfully in {} seconds" w in
        (logger INFO "Pig output: {}" w, true)
      else (logger ERROR "Pig analysis failed: {}" w, false).

Definition output_files : list (string * string) :=
  [ ("comuna_counts", "/output/incidents_by_comuna/part-r-00000");
    ("type_counts", "/output/incidents_by_type/part-r-00000");
    ("hourly_counts", "/output/incidents_by_hour/part-r-00000");
    ("hotspots", "/output/traffic_hotspots/part-r-00000") ].

(** One turn of the loop of lines 330-342. *)
Definition cache_output_file (e : env) (entry : string * string) (w : world)
  : world :=
  let '(cache_key, file_path) := entry in
  match files w !! file_path with
  | Some content =>
      if redis_up e
      then
        let w :=
          set_redis
            (SETEX (unix_time e) ("analysis:" ++ cache_key) 3600
               (Text content) (redis w)) w in
        logger INFO "Cached {} analysis results" w
      else logger ERROR "Error caching {}: {}" w
  | None => w
  end.

(** [cache_analysis_results] *)
Definition cache_analysis_results (e : env) (w : world) : world :=
  let w := fold_left (fun w entry => cache_output_file e entry w)
             output_files w in
  if redis_up e
  then set_redis
         (SETEX (unix_time e) "analysis:last_update" 3600
            (IsoTime (now e)) (redis w)) w
  else logger ERROR "Error caching results: {}" w.

Definition cache_keys : list string :=
  [ "analysis:comuna_counts"; "analysis:type_counts";
    "analysis:hourly_counts"; "analysis:hotspots" ].

(** [generate_processing_report]: the new world and the report. *)
Definition generate_processing_report (e : env) (metrics : ProcessingMetrics)
    (w : world) : world * report :=
  let cache_stats :=
    map (fun key =>
           if redis_up e
           then (key, (EXISTS (unix_time e) key (redis w),
                       TTL (unix_time e) key (redis w)))
           else (key, (false, -1)))
        cache_keys in
  let '(w, db_stats) :=
    if db_up e
    then (w, Some (len (db w),
                   len (filter (fun r => Row.processed r = true) (db w))))
    else (logger ERROR "Database connection error: {}" w, None) in
  (w, {| processing_metrics := metrics;
         cache_statistics := cache_stats;
         database_statistics := db_stats |}).

(** [process_data_pipeline] *)
Definition process_data_pipeline (e : env) (w : world) : world :=
  let w := logger INFO "Starting data processing pipeline" w in
  let w := logger INFO "Step 1: Filtering and cleaning data" w in
  let '(w, (total_records_, filtered_records_)) :=
    filter_and_clean_data e w in
  if filtered_records_ =? 0
  then logger INFO "No data to process" w
  else
    let w := logger INFO "Step 2: Exporting data for Apache Pig" w in
    let '(w, csv_path) := export_for_pig_processing e w in
    if Str.is_empty csv_path
    then logger ERROR "Failed to export data for Pig processing" w
    else
      let w := logger INFO "Step 3: Running Apache Pig analysis" w in
      let '(w, pig_success) := run_pig_analysis e csv_path w in
      if negb pig_success
      then logger ERROR "Pig analysis failed" w
      else
        let w := logger INFO "Step 4: Caching analysis results" w in
        let w := cache_analysis_results e w in
        let metrics :=
          {| total_records := total_records_;
             filtered_records := filtered_records_;
             processing_time := elapsed e;
             errors_count := 0;
             metrics_timestamp := now e |} in
        let '(w, report_) := generate_processing_report e metrics w in
        if redis_up e
        then
          let w :=
            set_redis
              (SETEX (unix_time e) "processing:last_report" 3600
                 (Json report_) (redis w)) w in
          let w :=
            logger INFO
              "Processing pipeline completed successfully in {} seconds" w in
          logger INFO "Processed {} incidents from {} total records" w
        else logger ERROR "Error in processing pipeline: {}" w.

(** ** The rules in the words of the specification *)

(** *** Validator *)











(** *** Deduplicator *)

(** The distance between two records on each axis, as the code computes it. *)
Definition lat_delta (a b : incident) : option float :=
  match latitude a, latitude b with
  | Val x, Val y => Some (abs (x - y))%float
  | _, _ => None
  end.

Definition lon_delta (a b : incident) : option float :=
  match longitude a, longitude b with
  | Val x, Val y => Some (abs (x - y))%float
  | _, _ => None
  end.

(** The absolute time between the two timestamps, in microseconds. *)
Definition time_delta (a b : incident) : option Z :=
  match timestamp a, timestamp b with
  | Val ta, Val tb =>
      match parse_timestamp ta, parse_timestamp tb with
      | Ok da, Ok db =>
          match dt_sub da db with
          | Ok td => Some (Z.abs td)
          | Raise _ => None
          end
      | _, _ => None
      end
  | _, _ => None
  end.

(** Same raw type, at most 0.001 degrees apart on each axis and at most 300
    seconds apart. *)
Definition same_event (a b : incident) : bool :=
  match get (incident_type a), get (incident_type b),
        lat_delta a b, lon_delta a b, time_delta a b with
  | Some ta, Some tb, Some dlat, Some dlon, Some dt =>
      String.eqb ta tb
      && (dlat <=? 0.001)%float && (dlon <=? 0.001)%float
      && (dt <=? 300 * microseconds_per_second)
  | _, _, _, _, _ => false
  end.

(** The instant of an aware [datetime] timestamp, in microseconds (UTC). *)
Definition instant (inc : incident) : option Z :=
  match timestamp inc with
  | Val (TDate d) =>
      match utcoffset d with
      | Some off => Some (wall d - off)
      | None => None
      end
  | _ => None
  end.

(** [a] is strictly earlier than [b]. *)
Definition earlier (a b : incident) : bool :=
  match instant a, instant b with
  | Some x, Some y => x <? y
  | _, _ => false
  end.

Definition aware (inc : incident) : Prop := is_Some (instant inc).

(** *** Normalizer *)

Definition str_or_absent (f : field string) : bool :=
  match f with
  | PyNone => false
  | _ => true
  end.

Definition present {A : Type} (f : field A) : bool :=
  match f with
  | Missing => false
  | _ => true
  end.

Definition has_value {A : Type} (f : field A) : bool :=
  match f with
  | Val _ => true
  | _ => false
  end.

(** The records the Normalizer keeps: the text fields are strings or absent,
    the severity is an integer or absent, the identifier and the timestamp
    keys are present and the coordinates are numbers. *)
Definition normalizable (inc : incident) : bool :=
  str_or_absent (incident_type inc)
  && str_or_absent (comuna inc)
  && str_or_absent (description inc)
  && negb (match severity inc with PyNone => true | _ => false end)
  && present (incident_id inc)
  && has_value (latitude inc)
  && has_value (longitude inc)
  && str_or_absent (street inc)
  && str_or_absent (city inc)
  && present (timestamp inc).

(** Raw severity above 10: integer-divided by 10 and capped at 10; otherwise
    unchanged. *)
Definition normalized_severity (raw : Z) : Z :=
  if raw <=? 10 then raw
  else if raw / 10 <=? 10 then raw / 10 else 10.

(** *** Export *)

(** The number of quote characters of a text. *)
Fixpoint count_quotes (s : string) : nat :=
  match s with
  | String c s' =>
      (if Ascii.eqb c Csv.quotechar then 1 else 0) + count_quotes s'
  | EmptyString => 0
  end.

(** *** Cache and orchestrator *)

(** [r'] is [r] but for entries that expire [ttl] seconds after [t]. *)
Definition written_with_ttl (t ttl : Z) (r r' : gmap string (payload * Z))
  : Prop :=
  forall key, r' !! key = r !! key
              \/ exists v, r' !! key = Some (v, t + ttl).

(** The last record a completed run logs. *)
Definition completion_record : log_record :=
  (INFO, "Processed {} incidents from {} total records").

Definition run_completed (w' : world) : Prop :=
  last (log w') = Some completion_record.

End Processor.

(** * Properties *)

(** ** Facts about binary64 comparisons and subtraction *)

Lemma SFcompare_antisym x y c :
  SFcompare x y = Some c -> SFcompare y x = Some (CompOpp c).
Proof.
  destruct x as [sx|sx| |sx mx ex], y as [sy|sy| |sy my ey]; simpl;
    try discriminate;
    try (intros [= <-]; destruct sx; try destruct sy; reflexivity).
  intros [= <-]. f_equal.
  destruct sx, sy; try reflexivity;
    rewrite (Z.compare_antisym ex ey); destruct (ex ?= ey); simpl; try reflexivity;
    rewrite ?(Pos.compare_cont_antisym mx my Eq); simpl;
    try rewrite CompOpp_involutive; reflexivity.
Qed.

Lemma SFcompare_nan x y :
  SFcompare x y = None <-> x = S754_nan \/ y = S754_nan.
Proof.
  split.
  - destruct x, y; simpl; try discriminate; auto.
  - intros [-> | ->]; [reflexivity | destruct x; reflexivity].
Qed.

Lemma ltb_negb_leb (x y : float) :
  Prim2SF x <> S754_nan -> Prim2SF y <> S754_nan ->
  (y <? x)%float = negb (x <=? y)%float.
Proof.
  intros Hx Hy. rewrite FloatAxioms.ltb_spec, FloatAxioms.leb_spec. unfold SFltb, SFleb.
  destruct (SFcompare (Prim2SF x) (Prim2SF y)) as [c|] eqn:E.
  - rewrite (SFcompare_antisym _ _ _ E). destruct c; reflexivity.
  - apply SFcompare_nan in E. tauto.
Qed.

(* shr never makes mantissa negative *)
Lemma shr_1_nonneg mrs : 0 <= shr_m mrs -> 0 <= shr_m (shr_1 mrs).
Proof.
  destruct mrs as [m r s]. simpl. destruct m as [|p|p]; simpl; try lia.
  - destruct p; simpl; lia.
Qed.

Lemma iter_pos_shr_1_nonneg p : forall mrs,
  0 <= shr_m mrs -> 0 <= shr_m (SpecFloat.iter_pos shr_1 p mrs).
Proof.
  induction p; intros mrs H; simpl; auto using shr_1_nonneg.
Qed.

Lemma shr_nonneg mrs e n : 0 <= shr_m mrs -> 0 <= shr_m (fst (shr mrs e n)).
Proof.
  intros H. unfold shr. destruct n; simpl; auto using iter_pos_shr_1_nonneg.
Qed.

Lemma shr_record_of_loc_m m l : shr_m (shr_record_of_loc m l) = m.
Proof. destruct l as [|[]]; reflexivity. Qed.

Lemma shr_fexp_nonneg prec emax m e l :
  0 <= m -> 0 <= shr_m (fst (shr_fexp prec emax m e l)).
Proof.
  intros H. unfold shr_fexp. apply shr_nonneg. now rewrite shr_record_of_loc_m.
Qed.

Lemma round_nearest_even_nonneg m l : 0 <= m -> 0 <= round_nearest_even m l.
Proof.
  intros H. unfold round_nearest_even. destruct l as [|[]]; try lia.
  destruct (Z.even m); lia.
Qed.

Lemma binary_round_aux_not_nan prec emax sx mx ex lx :
  0 <= mx -> binary_round_aux prec emax sx mx ex lx <> S754_nan.
Proof.
  intros H. unfold binary_round_aux.
  pose proof (shr_fexp_nonneg prec emax mx ex lx H) as H1.
  destruct (shr_fexp prec emax mx ex lx) as [mrs' e']. simpl in H1.
  pose proof (shr_fexp_nonneg prec emax _ e' loc_Exact
                (round_nearest_even_nonneg _ (loc_of_shr_record mrs') H1)) as H2.
  destruct (shr_fexp prec emax _ e' loc_Exact) as [mrs'' e'']. simpl in H2.
  destruct (shr_m mrs'') as [|p|p]; try discriminate; try lia.
  destruct (e'' <=? emax - prec); discriminate.
Qed.

Lemma binary_normalize_not_nan prec emax m e sz :
  binary_normalize prec emax m e sz <> S754_nan.
Proof.
  unfold binary_normalize, binary_round.
  destruct m as [|p|p]; try discriminate;
    destruct (shl_align _ _ _) as [mz ez]; apply binary_round_aux_not_nan; lia.
Qed.

Definition SFfinite (x : spec_float) : bool :=
  match x with S754_finite _ _ _ | S754_zero _ => true | _ => false end.

Lemma SFsub_not_nan prec emax x y :
  SFfinite x = true -> SFfinite y = true -> SFsub prec emax x y <> S754_nan.
Proof.
  destruct x as [sx|sx| |sx mx ex], y as [sy|sy| |sy my ey]; simpl;
    try discriminate; intros _ _.
  - destruct sx, sy; discriminate.
  - apply binary_normalize_not_nan.
Qed.

Lemma SFleb_finite_between lo hi x :
  SFfinite lo = true -> SFfinite hi = true ->
  SFleb lo x = true -> SFleb x hi = true -> SFfinite x = true.
Proof.
  unfold SFleb.
  destruct x as [s|s| |s m e]; simpl; try reflexivity.
  - destruct lo, hi; simpl; try discriminate; destruct s; discriminate.
  - destruct lo; discriminate.
Qed.

(** ** The csv writer and reader are inverse *)

Module CsvFacts.
Import Csv.

(** What the reader does once a field is complete. *)
Definition finish (field : string) (fields : list string) (rest : string)
  : list (list string) :=
  match rest with
  | EmptyString => [(fields ++ [field])%list]
  | String c rest' =>
      if is_newline c
      then (fields ++ [field])%list :: read START_RECORD "" [] rest'
      else read START_FIELD "" (fields ++ [field]) rest'
  end.

(** What may follow a field: nothing, a delimiter or a line feed. *)
Definition separated (rest : string) : Prop :=
  rest = ""
  \/ (exists rest', rest = String delimiter rest')
  \/ (exists rest', rest = String LF rest').

Lemma append_cons (c : ascii) (a b : string) :
  String c a ++ b = String c (a ++ b).
Proof. reflexivity. Qed.

Lemma append_nil_l (b : string) : "" ++ b = b.
Proof. reflexivity. Qed.

Lemma append_empty_r (s : string) : s ++ "" = s.
Proof.
  induction s as [|c s IH]; [done|]. rewrite append_cons. by f_equal.
Qed.

Lemma append_assoc (a b c : string) : (a ++ b) ++ c = a ++ (b ++ c).
Proof.
  induction a as [|x a IH]; [done|]. rewrite !append_cons. by f_equal.
Qed.

Lemma snoc_append (pre : string) (c : ascii) (s : string) :
  snoc pre c ++ s = pre ++ String c s.
Proof. unfold snoc. by rewrite append_assoc. Qed.

Lemma needs_quotes_cons c s :
  needs_quotes (String c s) = false ->
  Ascii.eqb c delimiter = false /\ Ascii.eqb c quotechar = false
  /\ is_newline c = false /\ needs_quotes s = false.
Proof.
  unfold needs_quotes, is_newline. simpl. intros H.
  destruct (Ascii.eqb c delimiter), (Ascii.eqb c quotechar),
    (Ascii.eqb c LF), (Ascii.eqb c CR); simpl in H;
    rewrite ?orb_true_r in H; try discriminate.
  repeat split; try reflexivity. exact H.
Qed.

Lemma read_unquoted (f : string) :
  forall pre fields rest,
  needs_quotes f = false -> separated rest ->
  read IN_FIELD pre fields (f ++ rest) = finish (pre ++ f) fields rest.
Proof.
  induction f as [|c f IH]; intros pre fields rest Hq Hrest.
  - rewrite append_nil_l, append_empty_r.
    by destruct Hrest as [-> | [[rest' ->] | [rest' ->]]].
  - apply needs_quotes_cons in Hq as (Hd & _ & Hn & Hq).
    rewrite append_cons. simpl. rewrite Hn, Hd.
    rewrite (IH _ _ _ Hq Hrest). by rewrite snoc_append.
Qed.

Lemma read_quoted (f : string) :
  forall pre fields rest,
  separated rest ->
  read IN_QUOTED_FIELD pre fields
    (Str.replace quotechar (String quotechar (String quotechar "")) f
     ++ String quotechar rest)
  = finish (pre ++ f) fields rest.
Proof.
  induction f as [|c f IH]; intros pre fields rest Hrest.
  - simpl Str.replace. rewrite append_nil_l, append_empty_r.
    by destruct Hrest as [-> | [[rest' ->] | [rest' ->]]].
  - simpl Str.replace. destruct (Ascii.eqb_spec c quotechar) as [->|Hne].
    + rewrite !append_cons, append_nil_l. simpl.
      rewrite (IH _ _ _ Hrest). by rewrite snoc_append.
    + rewrite append_cons. simpl. apply Ascii.eqb_neq in Hne. rewrite Hne.
      rewrite (IH _ _ _ Hrest). by rewrite snoc_append.
Qed.

(** A field is read back; at the start of a record its text must not be
    empty. *)
Lemma read_field (st : state) (f : string) (fields : list string)
    (rest : string) :
  st = START_FIELD
  \/ (st = START_RECORD /\ fields = [] /\ quote_field f <> "") ->
  separated rest ->
  read st "" fields (quote_field f ++ rest) = finish f fields rest.
Proof.
  intros Hst Hrest. unfold quote_field in *.
  destruct (needs_quotes f) eqn:Hq.
  - rewrite append_cons, append_assoc, append_cons, append_nil_l.
    assert (Hr : forall s, read st "" fields (String quotechar s)
                           = read IN_QUOTED_FIELD "" fields s).
    { intros s. destruct Hst as [-> | [-> _]]; reflexivity. }
    rewrite Hr. by rewrite read_quoted.
  - destruct f as [|c f].
    + destruct Hst as [-> | (_ & _ & Hne)]; [|done].
      rewrite append_nil_l.
      by destruct Hrest as [-> | [[rest' ->] | [rest' ->]]].
    + apply needs_quotes_cons in Hq as (Hd & Hqc & Hn & Hq).
      rewrite append_cons.
      assert (Hr : read st "" fields (String c (f ++ rest))
                   = read IN_FIELD (String c "") fields (f ++ rest)).
      { destruct Hst as [-> | [-> _]]; simpl; by rewrite Hn, Hqc, Hd. }
      rewrite Hr. by rewrite read_unquoted.
Qed.

Lemma join_cons (f g : string) (fs : list string) :
  join (f :: g :: fs) = f ++ String delimiter (join (g :: fs)).
Proof. reflexivity. Qed.

Lemma read_join (fs : list string) :
  forall f fields rest,
  read START_FIELD "" fields
    (join (quote_field f :: map quote_field fs) ++ String LF rest)
  = (fields ++ f :: fs)%list :: read START_RECORD "" [] rest.
Proof.
  induction fs as [|g fs IH]; intros f fields rest.
  - cbn [map join].
    rewrite read_field; [| by left | right; right; eauto].
    reflexivity.
  - rewrite map_cons, join_cons, append_assoc, append_cons.
    rewrite read_field; [| by left | right; left; eauto].
    cbn [finish]. change (is_newline delimiter) with false. cbv iota.
    rewrite IH. by rewrite <- app_assoc.
Qed.

(** The record written by [writerow] and ended by a line feed is read
    back, and the reader goes on with the next line. *)
Lemma read_writerow (fields : list string) (rest : string) :
  fields <> [] ->
  read START_RECORD "" [] (writerow fields ++ String LF rest)
  = fields :: read START_RECORD "" [] rest.
Proof.
  intros Hne. destruct fields as [|f fs]; [done|].
  destruct fs as [|g fs].
  - destruct f as [|c f]; [reflexivity|].
    change (writerow [String c f]) with (quote_field (String c f)).
    rewrite read_field; [done| |right; right; eauto].
    right. split; [done|]. split; [done|]. unfold quote_field.
    destruct (needs_quotes (String c f)); discriminate.
  - assert (writerow (f :: g :: fs)
            = join (quote_field f :: quote_field g :: map quote_field fs))
      as -> by (by destruct f).
    rewrite join_cons, append_assoc, append_cons.
    destruct (decide (quote_field f = "")) as [He|He].
    + rewrite He, append_nil_l. simpl read.
      change (is_newline delimiter) with false. cbv iota.
      change (Ascii.eqb delimiter quotechar) with false. cbv iota.
      change (Ascii.eqb delimiter delimiter) with true. cbv iota.
      assert (f = "") as ->.
      { unfold quote_field in He. destruct (needs_quotes f); [discriminate|done]. }
      apply (read_join fs g [""] rest).
    + rewrite read_field; [| right; done | right; left; eauto].
      cbn [finish]. change (is_newline delimiter) with false. cbv iota.
      apply (read_join fs g [f] rest).
Qed.

End CsvFacts.

(** ** Facts about the stable insertion sort *)

Section Sorting.

Context {A : Type} (lt : A -> A -> bool).

Lemma insert_sorted_Permutation (x : A) (l : list A) :
  insert_sorted lt x l ≡ₚ x :: l.
Proof.
  induction l as [|y l IH]; simpl; [done|].
  destruct (lt y x); [|done].
  rewrite IH. apply Permutation_swap.
Qed.

Lemma stable_sort_Permutation (l : list A) : stable_sort lt l ≡ₚ l.
Proof.
  induction l as [|x l IH]; simpl; [done|].
  by rewrite insert_sorted_Permutation, IH.
Qed.


End Sorting.

Section Properties.

Context (fromisoformat : string -> option datetime).
Context (round6 : float -> float).
Context (fmt : pandas_format).

(** ** Validator *)



(** A zero float is outside the bounding box. *)
Lemma zero_not_in_bounds_lat (lat lon : float) :
  (lat =? 0)%float = true -> in_bounds lat lon = false.
Proof.
  intros H. unfold in_bounds.
  rewrite FloatAxioms.eqb_spec in H. rewrite (FloatAxioms.leb_spec lat).
  unfold SFeqb, SFleb in *.
  destruct (Prim2SF lat) as [s|s| |s m e]; simpl in *; try discriminate.
  - now rewrite andb_false_r.
  - destruct s; discriminate.
  - destruct s; vm_compute in H; discriminate.
Qed.

Lemma zero_not_in_bounds_lon (lat lon : float) :
  (lon =? 0)%float = true -> in_bounds lat lon = false.
Proof.
  intros H. unfold in_bounds.
  rewrite FloatAxioms.eqb_spec in H. rewrite (FloatAxioms.leb_spec lon).
  unfold SFeqb, SFleb in *.
  destruct (Prim2SF lon) as [s|s| |s m e]; simpl in *; try discriminate.
  - now rewrite andb_false_r.
  - destruct s; discriminate.
  - destruct s; vm_compute in H; discriminate.
Qed.


(** ** Duplicate test *)

Lemma in_bounds_finite lat lon :
  in_bounds lat lon = true ->
  SFfinite (Prim2SF lat) = true /\ SFfinite (Prim2SF lon) = true.
Proof.
  unfold in_bounds. rewrite !andb_true_iff, !FloatAxioms.leb_spec.
  intros [[[H1 H2] H3] H4]. split.
  - eapply SFleb_finite_between; [| | exact H1 | exact H2]; reflexivity.
  - eapply SFleb_finite_between; [| | exact H3 | exact H4]; reflexivity.
Qed.

Lemma abs_sub_not_nan x y :
  SFfinite (Prim2SF x) = true -> SFfinite (Prim2SF y) = true ->
  Prim2SF (abs (x - y)) <> S754_nan.
Proof.
  intros Hx Hy. rewrite FloatAxioms.abs_spec, FloatAxioms.sub_spec.
  pose proof (SFsub_not_nan prec emax _ _ Hx Hy) as H.
  unfold SF64sub. destruct (SFsub prec emax (Prim2SF x) (Prim2SF y));
    simpl; congruence.
Qed.

Lemma threshold_not_nan : Prim2SF duplicate_distance_threshold <> S754_nan.
Proof. vm_compute. discriminate. Qed.

(** What a record that passes validation holds. *)
Lemma is_valid_incident_inv now_ inc :
  is_valid_incident fromisoformat now_ inc = Ok true ->
  exists id ty lat lon t d,
    incident_id inc = Val id /\ incident_type inc = Val ty
    /\ latitude inc = Val lat /\ longitude inc = Val lon
    /\ timestamp inc = Val t /\ in_bounds lat lon = true
    /\ parse_timestamp fromisoformat t = Ok d
    /\ description inc <> PyNone.
Proof.
  unfold is_valid_incident, truthy_str, truthy_float, truthy_ts.
  destruct inc as [id ty de la lo st ci co se ts so]; simpl.
  destruct id as [| |id]; simpl; try discriminate.
  destruct ty as [| |ty]; simpl; rewrite ?andb_false_r; simpl; try discriminate.
  destruct la as [| |la]; simpl; rewrite ?andb_false_r; simpl; try discriminate.
  destruct lo as [| |lo]; simpl; rewrite ?andb_false_r; simpl; try discriminate.
  destruct ts as [| |t]; simpl; rewrite ?andb_false_r; simpl; try discriminate.
  destruct (negb (negb (Str.is_empty id) && negb (Str.is_empty ty)
                  && negb (la =? 0)%float && negb (lo =? 0)%float
                  && match t with TStr s => negb (Str.is_empty s) | TDate _ => true end));
    try discriminate.
  destruct (in_bounds la lo) eqn:Hb; simpl; try discriminate.
  destruct de as [| |d]; simpl; try discriminate;
    (destruct (_ <? 3)%nat; try discriminate);
    (destruct (parse_timestamp fromisoformat t) as [dt|] eqn:Hp; simpl;
     try discriminate);
    intros _; exists id, ty, la, lo, t, dt; repeat split; auto; discriminate.
Qed.

(** On two records that pass validation the duplicate test never raises and
    is the rule [same_event]. *)
Lemma are_incidents_duplicate_valid (now_ : Z) (a b : incident) :
  is_valid_incident fromisoformat now_ a = Ok true ->
  is_valid_incident fromisoformat now_ b = Ok true ->
  are_incidents_duplicate fromisoformat a b
  = Ok (same_event fromisoformat a b).
Proof.
  intros Ha Hb.
  destruct (is_valid_incident_inv _ _ Ha)
    as (ida & tya & lata & lona & ta & da & Ea1 & Ea2 & Ea3 & Ea4 & Ea5 & Ba & Pa & _).
  destruct (is_valid_incident_inv _ _ Hb)
    as (idb & tyb & latb & lonb & tb & db & Eb1 & Eb2 & Eb3 & Eb4 & Eb5 & Bb & Pb & _).
  destruct (in_bounds_finite _ _ Ba) as [Fa1 Fa2].
  destruct (in_bounds_finite _ _ Bb) as [Fb1 Fb2].
  unfold are_incidents_duplicate, same_event, lat_delta, lon_delta, time_delta.
  rewrite Ea2, Eb2, Ea3, Eb3, Ea4, Eb4, Ea5, Eb5. simpl.
  rewrite Pa, Pb. simpl.
  destruct (String.eqb tya tyb); simpl.
  2:{ destruct (dt_sub da db); reflexivity. }
  rewrite (ltb_negb_leb (abs (lata - latb)) duplicate_distance_threshold
             (abs_sub_not_nan _ _ Fa1 Fb1) threshold_not_nan).
  rewrite (ltb_negb_leb (abs (lona - lonb)) duplicate_distance_threshold
             (abs_sub_not_nan _ _ Fa2 Fb2) threshold_not_nan).
  change duplicate_distance_threshold with 0.001%float.
  destruct (abs (lata - latb) <=? 0.001)%float; simpl.
  2:{ destruct (dt_sub da db); reflexivity. }
  destruct (abs (lona - lonb) <=? 0.001)%float; simpl.
  2:{ destruct (dt_sub da db); reflexivity. }
  destruct (dt_sub da db) as [td|]; simpl; try reflexivity.
  unfold total_seconds_gt, duplicate_time_threshold.
  rewrite Z.leb_antisym. destruct (_ <? Z.abs td); reflexivity.
Qed.

(** C4: on two records that pass validation [are_incidents_duplicate]
    returns, and it answers true exactly when the two raw types are the same
    string, the latitudes and the longitudes are each at most 0.001 apart and
    the timestamps are at most 300 seconds apart. The tests are not strict:
    a distance equal to a threshold makes duplicates, anything above it does
    not. *)
Theorem C4_duplicate_rule (now_ : Z) (a b : incident) :
  is_valid_incident fromisoformat now_ a = Ok true ->
  is_valid_incident fromisoformat now_ b = Ok true ->
  are_incidents_duplicate fromisoformat a b
  = Ok (same_event fromisoformat a b)
  /\ (are_incidents_duplicate fromisoformat a b = Ok true <->
      exists ty dlat dlon dt,
        incident_type a = Val ty /\ incident_type b = Val ty
        /\ lat_delta a b = Some dlat /\ (dlat <=? 0.001)%float = true
        /\ lon_delta a b = Some dlon /\ (dlon <=? 0.001)%float = true
        /\ time_delta fromisoformat a b = Some dt
        /\ dt <= 300 * microseconds_per_second).
Proof.
  intros Ha Hb.
  rewrite (are_incidents_duplicate_valid now_ a b Ha Hb).
  split; [reflexivity|].
  destruct (is_valid_incident_inv _ _ Ha)
    as (ida & tya & lata & lona & ta & da & _ & Ea & _).
  destruct (is_valid_incident_inv _ _ Hb)
    as (idb & tyb & latb & lonb & tb & db & _ & Eb & _).
  unfold same_event. rewrite Ea, Eb. simpl.
  split.
  - intros [= H].
    destruct (lat_delta a b) as [dlat|]; [|discriminate].
    destruct (lon_delta a b) as [dlon|]; [|discriminate].
    destruct (time_delta fromisoformat a b) as [dt|]; [|discriminate].
    rewrite !andb_true_iff in H. destruct H as [[[H1 H2] H3] H4].
    apply String.eqb_eq in H1 as ->. apply Z.leb_le in H4.
    exists tyb, dlat, dlon, dt. repeat split; assumption.
  - intros (ty & dlat & dlon & dt & [= ->] & [= ->] & -> & H2 & -> & H3 & -> & H4).
    rewrite String.eqb_refl, H2, H3. simpl. apply Z.leb_le in H4.
    by rewrite H4.
Qed.

(** ** Deduplicator *)






(** The sort of the source on a batch of aware datetimes. *)
Definition keyed (x : incident) : option tsval * incident :=
  (get (timestamp x), x).

Lemma aware_subscript x :
  aware x -> subscript (timestamp x) = Ok (get (timestamp x)).
Proof.
  unfold aware, instant. destruct (timestamp x) as [| |[]]; simpl;
    intros [? ?]; try discriminate; reflexivity.
Qed.

Lemma decorate_aware (l : list incident) :
  Forall aware l -> decorate l = Ok (map keyed l).
Proof.
  induction 1 as [|x l Hx _ IH]; simpl; [done|].
  by rewrite (aware_subscript x Hx), IH.
Qed.

Lemma key_lt_aware a b :
  aware a -> aware b ->
  key_lt (get (timestamp a)) (get (timestamp b)) = Ok (earlier a b).
Proof.
  unfold aware, earlier, instant.
  destruct (timestamp a) as [| |[|da]], (timestamp b) as [| |[|db]]; simpl;
    try (intros [? ?]; discriminate); try (intros _ [? ?]; discriminate).
  unfold dt_sub.
  destruct (utcoffset da), (utcoffset db);
    try (intros [? ?]; discriminate); try (intros _ [? ?]; discriminate).
  intros _ _. simpl. f_equal.
  destruct (Z.ltb_spec (wall da - z - (wall db - z0)) 0),
    (Z.ltb_spec (wall da - z) (wall db - z0)); try reflexivity; lia.
Qed.

Lemma insert_by_key_aware x (l : list incident) :
  aware x -> Forall aware l ->
  insert_by_key (keyed x) (map keyed l)
  = Ok (map keyed (insert_sorted earlier x l)).
Proof.
  intros Hx. induction 1 as [|y l Hy _ IH]; simpl; [done|].
  rewrite (key_lt_aware y x Hy Hx). simpl.
  destruct (earlier y x); simpl; [|done].
  by rewrite IH.
Qed.

Lemma sort_by_key_aware (l : list incident) :
  Forall aware l ->
  sort_by_key (map keyed l) = Ok (map keyed (stable_sort earlier l)).
Proof.
  induction 1 as [|x l Hx Hl IH]; simpl; [done|].
  rewrite IH. simpl. apply insert_by_key_aware; [done|].
  by rewrite stable_sort_Permutation.
Qed.

Lemma sorted_by_timestamp_aware (l : list incident) :
  Forall aware l -> sorted_by_timestamp l = Ok (stable_sort earlier l).
Proof.
  intros Ha. unfold sorted_by_timestamp.
  rewrite (decorate_aware l Ha). simpl.
  rewrite (sort_by_key_aware l Ha). simpl.
  f_equal. rewrite map_map. apply map_id.
Qed.

Lemma remove_duplicates_aware (l : list incident) :
  Forall aware l ->
  remove_duplicates fromisoformat l
  = dedup_loop fromisoformat (stable_sort earlier l) [].
Proof.
  intros Ha. unfold remove_duplicates. destruct l as [|x l]; [done|].
  by rewrite (sorted_by_timestamp_aware _ Ha).
Qed.


Lemma is_duplicate_of_any_valid now_ inc (acc : list incident) :
  is_valid_incident fromisoformat now_ inc = Ok true ->
  Forall (fun x => is_valid_incident fromisoformat now_ x = Ok true) acc ->
  is_duplicate_of_any fromisoformat inc acc
  = Ok (existsb (same_event fromisoformat inc) acc).
Proof.
  intros Hi. induction 1 as [|c acc Hc _ IH]; simpl; [done|].
  rewrite (are_incidents_duplicate_valid now_ inc c Hi Hc). simpl.
  by destruct (same_event fromisoformat inc c).
Qed.


Lemma aware_dict_of_row off r :
  aware (dict_of_row off r)
  /\ instant (dict_of_row off r) = Some (Row.timestamp r).
Proof.
  unfold aware, instant. simpl. split; [eexists; reflexivity|].
  f_equal. lia.
Qed.


(** ** Normalizer *)

Lemma bind_Ok_inv {A B : Type} (r : result A) (k : A -> result B) (b : B) :
  bind r k = Ok b -> exists a, r = Ok a /\ k a = Ok b.
Proof. destruct r as [a|e]; simpl; [eauto | discriminate]. Qed.

Lemma str_method_ok (m : string -> string) (f : field string) :
  str_or_absent f = true -> exists s, str_method m (get_default f "") = Ok s.
Proof. destruct f; simpl; try discriminate; eauto. Qed.

Lemma str_method_inv m f s :
  str_method m (get_default f "") = Ok s ->
  str_or_absent f = true /\ exists raw, get_default f "" = Some raw /\ s = m raw.
Proof. destruct f; simpl; try discriminate; intros [= <-]; eauto. Qed.

Lemma homogenize_incident_total (inc : incident) :
  normalizable inc = true -> exists h, homogenize_incident round6 inc = Ok h.
Proof.
  unfold normalizable. rewrite !andb_true_iff.
  intros [[[[[[[[[H1 H2] H3] H4] H5] H6] H7] H8] H9] H10].
  unfold homogenize_incident.
  destruct (str_method_ok Str.lower _ H1) as [ty ->]; simpl.
  destruct (str_method_ok (fun s => Str.strip (Str.lower s)) _ H2) as [co ->];
    simpl.
  destruct (str_method_ok Str.strip _ H3) as [de ->]; simpl.
  destruct (severity inc) as [| |se]; try discriminate; simpl;
    (destruct (incident_id inc) as [| |id]; try discriminate; simpl);
    (destruct (latitude inc) as [| |la]; try discriminate; simpl);
    (destruct (longitude inc) as [| |lo]; try discriminate; simpl);
    (destruct (str_method_ok Str.strip _ H8) as [st ->]; simpl);
    (destruct (str_method_ok Str.strip _ H9) as [ci ->]; simpl);
    (destruct (timestamp inc) as [| |ts]; try discriminate; simpl);
    eauto.
Qed.

Lemma homogenize_incident_normalizable (inc h : incident) :
  homogenize_incident round6 inc = Ok h -> normalizable inc = true.
Proof.
  unfold homogenize_incident, normalizable. intros H.
  apply bind_Ok_inv in H as (ty & Hty & H). apply str_method_inv in Hty as [-> _].
  apply bind_Ok_inv in H as (co & Hco & H). apply str_method_inv in Hco as [-> _].
  apply bind_Ok_inv in H as (de & Hde & H). apply str_method_inv in Hde as [-> _].
  apply bind_Ok_inv in H as (se & Hse & H).
  apply bind_Ok_inv in H as (id & Hid & H).
  apply bind_Ok_inv in H as (la & Hla & H).
  apply bind_Ok_inv in H as (la' & Hla' & H).
  apply bind_Ok_inv in H as (lo & Hlo & H).
  apply bind_Ok_inv in H as (lo' & Hlo' & H).
  apply bind_Ok_inv in H as (st & Hst & H). apply str_method_inv in Hst as [-> _].
  apply bind_Ok_inv in H as (ci & Hci & H). apply str_method_inv in Hci as [-> _].
  apply bind_Ok_inv in H as (ts & Hts & H).
  assert (has_value (latitude inc) = true) as ->.
  { destruct (latitude inc); simpl in *; try discriminate; trivial.
    injection Hla as <-. discriminate. }
  assert (has_value (longitude inc) = true) as ->.
  { destruct (longitude inc); simpl in *; try discriminate; trivial.
    injection Hlo as <-. discriminate. }
  destruct (severity inc); try discriminate;
    destruct (incident_id inc); try discriminate;
    destruct (timestamp inc); try discriminate; reflexivity.
Qed.

(** What a normalized record holds. *)
Lemma homogenize_incident_inv (inc h : incident) :
  homogenize_incident round6 inc = Ok h ->
  exists ty raw_description raw_severity,
    incident_type h = Val ty
    /\ get_default (description inc) "" = Some raw_description
    /\ description h
       = Val (if Str.is_empty (Str.strip raw_description)
              then "Incidente de tipo " ++ ty
              else Str.strip raw_description)
    /\ get_default (severity inc) 0 = Some raw_severity
    /\ severity h
       = Val (if 10 <? raw_severity then Z.min (raw_severity / 10) 10
              else raw_severity)
    /\ incident_id h = to_field (get (incident_id inc)).
Proof.
  unfold homogenize_incident. intros H.
  apply bind_Ok_inv in H as (ty & Hty & H).
  apply bind_Ok_inv in H as (co & Hco & H).
  apply bind_Ok_inv in H as (de & Hde & H).
  apply str_method_inv in Hde as (_ & raw & Hraw & ->).
  apply bind_Ok_inv in H as (se & Hse & H).
  apply bind_Ok_inv in H as (id & Hid & H).
  apply bind_Ok_inv in H as (la & Hla & H).
  apply bind_Ok_inv in H as (la' & Hla' & H).
  apply bind_Ok_inv in H as (lo & Hlo & H).
  apply bind_Ok_inv in H as (lo' & Hlo' & H).
  apply bind_Ok_inv in H as (st & Hst & H).
  apply bind_Ok_inv in H as (ci & Hci & H).
  apply bind_Ok_inv in H as (ts & Hts & H).
  injection H as <-. simpl.
  unfold rescale_severity in Hse.
  destruct (get_default (severity inc) 0) as [s|] eqn:Es; try discriminate.
  injection Hse as <-.
  eexists _, raw, s. repeat split; try reflexivity; try assumption.
  destruct (incident_id inc); try discriminate; injection Hid as <-; reflexivity.
Qed.

Lemma normalized_severity_eq raw :
  (if 10 <? raw then Z.min (raw / 10) 10 else raw) = normalized_severity raw.
Proof.
  unfold normalized_severity. rewrite Z.ltb_antisym.
  destruct (raw <=? 10); simpl; try reflexivity.
  destruct (Z.leb_spec (raw / 10) 10); lia.
Qed.

(** C6: for every record the Normalizer keeps, with raw severity [raw], the
    normalized record exists and its severity is [raw] when [raw] is at most
    10, and otherwise [raw] integer-divided by 10 and capped at 10; raw 47
    becomes 4 and raw 999 becomes 10. *)
Theorem C6_severity_rescale (inc : incident) (raw : Z) :
  normalizable inc = true ->
  severity inc = Val raw ->
  exists h,
    fst (homogenize_incidents round6 [inc]) = [h]
    /\ severity h = Val (normalized_severity raw)
    /\ normalized_severity 47 = 4
    /\ normalized_severity 999 = 10.
Proof.
  intros Hn Hs. destruct (homogenize_incident_total inc Hn) as [h Hh].
  exists h. simpl. rewrite Hh. simpl. split; [reflexivity|].
  destruct (homogenize_incident_inv _ _ Hh)
    as (ty & rd & rs & _ & _ & _ & Hrs & Hsev & _).
  rewrite Hs in Hrs. injection Hrs as <-.
  rewrite Hsev, normalized_severity_eq. repeat split; reflexivity.
Qed.

Lemma homogenize_incidents_length (incidents : list incident) :
  (length (fst (homogenize_incidents round6 incidents)) <= length incidents)%nat.
Proof.
  induction incidents as [|inc rest IH]; simpl; [lia|].
  destruct (homogenize_incidents round6 rest) as [hs lg].
  destruct (homogenize_incident round6 inc); simpl in *; lia.
Qed.

(** The output holds the normalized form of each [normalizable] record, in
    order, and nothing else. *)
Lemma homogenize_incidents_all (incidents : list incident) :
  Forall2 (fun inc h => homogenize_incident round6 inc = Ok h)
    (List.filter normalizable incidents)
    (fst (homogenize_incidents round6 incidents)).
Proof.
  induction incidents as [|inc rest IH]; simpl; [constructor|].
  destruct (homogenize_incidents round6 rest) as [hs lg].
  destruct (normalizable inc) eqn:Hn.
  - destruct (homogenize_incident_total inc Hn) as [h Hh]. rewrite Hh.
    simpl in *. constructor; assumption.
  - destruct (homogenize_incident round6 inc) as [h|] eqn:Hh; [|exact IH].
    apply homogenize_incident_normalizable in Hh. congruence.
Qed.

Lemma homogenize_incidents_elem (incidents : list incident) (h : incident) :
  In h (fst (homogenize_incidents round6 incidents)) ->
  exists inc, In inc incidents /\ homogenize_incident round6 inc = Ok h.
Proof.
  induction incidents as [|inc rest IH]; simpl; [tauto|].
  destruct (homogenize_incidents round6 rest) as [hs lg].
  destruct (homogenize_incident round6 inc) as [h'|] eqn:E; simpl in *.
  - intros [<- | Hin]; [eauto | destruct (IH Hin) as (i & ? & ?); eauto].
  - intros Hin. destruct (IH Hin) as (i & ? & ?); eauto.
Qed.

Lemma append_nonempty (a b : string) : a <> "" -> a ++ b <> "".
Proof. destruct a; simpl; intros H; [congruence | discriminate]. Qed.

Lemma is_empty_false s : Str.is_empty s = false -> s <> "".
Proof. destruct s; simpl; congruence. Qed.

(** C7, as amended: [homogenize_incidents] is a total function; it returns
    at most one record per input record: the normalized form of each
    [normalizable] record, in order, and nothing for the others; and the
    description of every record returned is not empty: a description that is
    empty once trimmed is replaced by the placeholder naming the normalized
    type. *)
Theorem C7_normalizer_total (incidents : list incident) :
  let homogenized := fst (homogenize_incidents round6 incidents) in
  (length homogenized <= length incidents)%nat
  /\ Forall2 (fun inc h => homogenize_incident round6 inc = Ok h)
       (List.filter normalizable incidents) homogenized
  /\ (forall h, In h homogenized ->
      exists inc ty d,
        In inc incidents /\ homogenize_incident round6 inc = Ok h
        /\ incident_type h = Val ty /\ description h = Val d /\ d <> ""
        /\ (forall raw, get_default (description inc) "" = Some raw ->
            Str.strip raw = "" -> d = "Incidente de tipo " ++ ty)).
Proof.
  simpl. split; [apply homogenize_incidents_length|].
  split; [apply homogenize_incidents_all|].
  intros h Hin. destruct (homogenize_incidents_elem _ _ Hin) as (inc & Hi & Hh).
  destruct (homogenize_incident_inv _ _ Hh)
    as (ty & rd & rs & Hty & Hrd & Hde & _).
  exists inc, ty,
    (if Str.is_empty (Str.strip rd) then "Incidente de tipo " ++ ty
     else Str.strip rd).
  repeat split; try assumption.
  - destruct (Str.is_empty (Str.strip rd)) eqn:E.
    + apply append_nonempty. discriminate.
    + now apply is_empty_false.
  - intros raw Hraw Hs. rewrite Hrd in Hraw. injection Hraw as ->.
    rewrite Hs. reflexivity.
Qed.

(** ** Cache and orchestrator *)

(** ** What each stage leaves alone *)

Lemma filter_and_clean_data_frame (e : env) (w : world) :
  let w' := fst (filter_and_clean_data fromisoformat round6 e w) in
  redis w' = redis w /\ files w' = files w.
Proof.
  unfold filter_and_clean_data. simpl.
  repeat case_match; simpl; done.
Qed.

Lemma export_for_pig_processing_redis (e : env) (w : world) :
  redis (fst (export_for_pig_processing fmt e w)) = redis w.
Proof. unfold export_for_pig_processing. repeat case_match; done. Qed.

Lemma run_pig_analysis_redis (e : env) (path : string) (w : world) :
  redis (fst (run_pig_analysis e path w)) = redis w.
Proof. unfold run_pig_analysis. repeat case_match; done. Qed.

Lemma generate_processing_report_spec (e : env) (m : ProcessingMetrics)
    (w : world) :
  let '(w', r) := generate_processing_report e m w in
  redis w' = redis w /\ processing_metrics r = m.
Proof. unfold generate_processing_report. repeat case_match; simplify_eq; done. Qed.

(** ** Entries written with a TTL *)

Lemma written_with_ttl_refl t ttl r : written_with_ttl t ttl r r.
Proof. intros key. by left. Qed.

Lemma written_with_ttl_SETEX t ttl key v r r' :
  written_with_ttl t ttl r r' ->
  written_with_ttl t ttl r (SETEX t key ttl v r').
Proof.
  intros H k. unfold SETEX. destruct (decide (key = k)) as [->|Hne].
  - right. exists v. by rewrite lookup_insert_eq.
  - rewrite lookup_insert_ne by done. apply H.
Qed.

Lemma cache_output_file_ttl (e : env) entry (w : world) r :
  written_with_ttl (unix_time e) 3600 r (redis w) ->
  written_with_ttl (unix_time e) 3600 r (redis (cache_output_file e entry w)).
Proof.
  intros H. unfold cache_output_file. destruct entry as [k p].
  repeat case_match; simpl; try done.
  by apply written_with_ttl_SETEX.
Qed.

Lemma cache_analysis_results_ttl (e : env) (w : world) r :
  written_with_ttl (unix_time e) 3600 r (redis w) ->
  written_with_ttl (unix_time e) 3600 r (redis (cache_analysis_results e w)).
Proof.
  intros H. unfold cache_analysis_results.
  assert (Hf : forall entries w0,
             written_with_ttl (unix_time e) 3600 r (redis w0) ->
             written_with_ttl (unix_time e) 3600 r
               (redis (fold_left (fun w entry => cache_output_file e entry w)
                         entries w0))).
  { induction entries as [|en entries IH]; intros w0 H0; simpl; [done|].
    apply IH. by apply cache_output_file_ttl. }
  specialize (Hf output_files w H).
  case_match; simpl; [|done]. by apply written_with_ttl_SETEX.
Qed.

Lemma process_data_pipeline_ttl (e : env) (w : world) :
  written_with_ttl (unix_time e) 3600 (redis w)
    (redis (process_data_pipeline fromisoformat round6 fmt e w)).
Proof.
  unfold process_data_pipeline.
  set (w0 := logger INFO "Step 1: Filtering and cleaning data" _).
  destruct (filter_and_clean_data_frame e w0) as [Hr _].
  destruct (filter_and_clean_data fromisoformat round6 e w0)
    as [w1 [total filtered]]. simpl in Hr.
  destruct (filtered =? 0).
  { simpl. rewrite Hr. apply written_with_ttl_refl. }
  set (w1' := logger INFO "Step 2: Exporting data for Apache Pig" w1).
  pose proof (export_for_pig_processing_redis e w1') as Hr2.
  destruct (export_for_pig_processing fmt e w1') as [w2 csv_path].
  simpl in Hr2.
  destruct (Str.is_empty csv_path).
  { simpl. rewrite Hr2. simpl. rewrite Hr. apply written_with_ttl_refl. }
  set (w2' := logger INFO "Step 3: Running Apache Pig analysis" w2).
  pose proof (run_pig_analysis_redis e csv_path w2') as Hr3.
  destruct (run_pig_analysis e csv_path w2') as [w3 ok]. simpl in Hr3.
  destruct ok; simpl.
  2:{ rewrite Hr3. simpl. rewrite Hr2. simpl. rewrite Hr.
      apply written_with_ttl_refl. }
  set (w3' := logger INFO "Step 4: Caching analysis results" w3).
  assert (H4 : written_with_ttl (unix_time e) 3600 (redis w)
                 (redis (cache_analysis_results e w3'))).
  { apply cache_analysis_results_ttl. simpl. rewrite Hr3. simpl.
    rewrite Hr2. simpl. rewrite Hr. apply written_with_ttl_refl. }
  set (m := mkMetrics _ _ _ _ _).
  pose proof (generate_processing_report_spec e m
                (cache_analysis_results e w3')) as H5.
  destruct (generate_processing_report e m (cache_analysis_results e w3'))
    as [w5 rep]. destruct H5 as [H5 _].
  destruct (redis_up e); simpl.
  - apply written_with_ttl_SETEX. by rewrite H5.
  - by rewrite H5.
Qed.

(** An entry read at or after its expiry is a miss. *)
Lemma GET_expired (t : Z) (key : string) (r : gmap string (payload * Z))
    (v : payload) (expiry : Z) :
  r !! key = Some (v, expiry) -> expiry <= t -> GET t key r = None.
Proof.
  intros H Ht. unfold GET. rewrite H.
  destruct (Z.ltb_spec t expiry); [lia | done].
Qed.

Lemma GET_miss (t : Z) (key : string) (r : gmap string (payload * Z)) :
  r !! key = None -> GET t key r = None.
Proof. intros H. unfold GET. by rewrite H. Qed.

Lemma cache_output_file_files (e : env) entry (w : world) :
  files (cache_output_file e entry w) = files w.
Proof. unfold cache_output_file. destruct entry. repeat case_match; done. Qed.

(** With the cache reachable, every result file that exists is stored under
    its key, as it is, for 3600 seconds, and so is the time of the update. *)
Lemma cache_analysis_results_stores (e : env) (w : world)
    (key path content : string) :
  redis_up e = true ->
  (key, path) ∈ output_files ->
  files w !! path = Some content ->
  redis (cache_analysis_results e w) !! ("analysis:" ++ key)
  = Some (Text content, unix_time e + 3600)
  /\ redis (cache_analysis_results e w) !! "analysis:last_update"
     = Some (IsoTime (now e), unix_time e + 3600).
Proof.
  intros Hup Hin Hf. unfold cache_analysis_results. rewrite Hup.
  split; [|apply lookup_insert_eq].
  unfold output_files in *. cbn [fold_left].
  unfold cache_output_file. rewrite Hup. cbn [files set_redis logger redis].
  unfold SETEX.
  repeat (apply elem_of_cons in Hin as [Hin|Hin];
          [injection Hin as -> ->; rewrite ?Hf;
           repeat case_match; simplify_map_eq; done|]).
  by apply elem_of_nil in Hin.
Qed.

(** C9: every entry the Cache-Aside Materializer writes is stored for 3600
    seconds. With the cache reachable, [cache_analysis_results] stores each
    result file that exists under its key, and the time of the update, with
    expiry 3600 s after the write; whatever [cache_analysis_results] or a
    whole run of [process_data_pipeline] (the last report included) changes
    in the cache is an entry with that expiry; and a read of such an entry
    at or after its expiry returns nothing, exactly as a read of a key that
    was deleted. *)
Theorem C9_cache_ttl (e : env) (w : world) :
  (redis_up e = true ->
   forall key path content,
     (key, path) ∈ output_files ->
     files w !! path = Some content ->
     redis (cache_analysis_results e w) !! ("analysis:" ++ key)
     = Some (Text content, unix_time e + 3600)
     /\ redis (cache_analysis_results e w) !! "analysis:last_update"
        = Some (IsoTime (now e), unix_time e + 3600))
  /\ written_with_ttl (unix_time e) 3600 (redis w)
       (redis (cache_analysis_results e w))
  /\ written_with_ttl (unix_time e) 3600 (redis w)
       (redis (process_data_pipeline fromisoformat round6 fmt e w))
  /\ (forall (w' : world) (key : string),
        w' = cache_analysis_results e w
        \/ w' = process_data_pipeline fromisoformat round6 fmt e w ->
        redis w' !! key <> redis w !! key ->
        forall t, unix_time e + 3600 <= t ->
          GET t key (redis w') = None
          /\ GET t key (redis w') = GET t key (delete key (redis w'))).
Proof.
  pose proof (cache_analysis_results_ttl e w (redis w)
                (written_with_ttl_refl _ _ _)) as H1.
  pose proof (process_data_pipeline_ttl e w) as H2.
  split.
  { intros Hup key path content Hin Hf.
    exact (cache_analysis_results_stores e w key path content Hup Hin Hf). }
  split; [done|]. split; [done|].
  intros w' key Hw' Hne t Ht.
  assert (Hw : written_with_ttl (unix_time e) 3600 (redis w) (redis w'))
    by (destruct Hw' as [-> | ->]; done).
  destruct (Hw key) as [Heq | [v Hv]]; [done|].
  rewrite (GET_expired t key _ v _ Hv Ht).
  split; [done|]. symmetry. apply GET_miss. apply lookup_delete_eq.
Qed.

Lemma last_logger lvl msg w : last (log (logger lvl msg w)) = Some (lvl, msg).
Proof. simpl. apply last_snoc. Qed.

(** C10: after a run of the pipeline that logs its completion, the cache
    holds the report of the run, and the [errors_count] of that report is 0,
    whatever the Normalizer dropped on the way. *)
Theorem C10_errors_count_zero (e : env) (w : world) :
  run_completed (process_data_pipeline fromisoformat round6 fmt e w) ->
  exists rep,
    redis (process_data_pipeline fromisoformat round6 fmt e w)
      !! "processing:last_report"
    = Some (Json rep, unix_time e + 3600)
    /\ errors_count (processing_metrics rep) = 0.
Proof.
  unfold run_completed, completion_record, process_data_pipeline.
  destruct (filter_and_clean_data fromisoformat round6 e _)
    as [w1 [total filtered]].
  destruct (filtered =? 0).
  { rewrite last_logger. discriminate. }
  destruct (export_for_pig_processing fmt e _) as [w2 csv_path].
  destruct (Str.is_empty csv_path).
  { rewrite last_logger. discriminate. }
  destruct (run_pig_analysis e csv_path _) as [w3 ok].
  destruct ok; simpl negb; cbv iota.
  2:{ rewrite last_logger. discriminate. }
  match goal with
  | |- context [generate_processing_report e ?m ?w4] =>
      pose proof (generate_processing_report_spec e m w4) as H5;
      destruct (generate_processing_report e m w4) as [w5 rep]
  end.
  destruct H5 as [_ Hm].
  destruct (redis_up e).
  2:{ rewrite last_logger. discriminate. }
  intros _. exists rep. split.
  - simpl. unfold SETEX. apply lookup_insert_eq.
  - by rewrite Hm.
Qed.


(** ** The filter stage marks what it keeps *)

Lemma filter_valid_elem now_ (l f : list incident) :
  filter_valid fromisoformat now_ l = Ok f -> forall x, x ∈ f -> x ∈ l.
Proof.
  revert f. induction l as [|inc l IH]; simpl; intros f H x Hx.
  { injection H as <-. done. }
  apply bind_Ok_inv in H as (v & _ & H).
  apply bind_Ok_inv in H as (f' & Hf' & H). injection H as <-.
  destruct v.
  - apply elem_of_cons in Hx as [->|Hx]; [by left|right; eauto].
  - right; eauto.
Qed.

Lemma decorate_snd (l : list incident) k :
  decorate l = Ok k -> map snd k = l.
Proof.
  revert k. induction l as [|x l IH]; simpl; intros k H.
  { by injection H as <-. }
  apply bind_Ok_inv in H as (key & _ & H).
  apply bind_Ok_inv in H as (r & Hr & H). injection H as <-.
  simpl. f_equal. by apply IH.
Qed.

Lemma insert_by_key_Permutation p l r :
  insert_by_key p l = Ok r -> r ≡ₚ p :: l.
Proof.
  revert r. induction l as [|q l IH]; simpl; intros r H.
  { by injection H as <-. }
  apply bind_Ok_inv in H as (b & _ & H). destruct b.
  - apply bind_Ok_inv in H as (r' & Hr' & H). injection H as <-.
    rewrite (IH _ Hr'). apply Permutation_swap.
  - by injection H as <-.
Qed.

Lemma sort_by_key_Permutation l s : sort_by_key l = Ok s -> s ≡ₚ l.
Proof.
  revert s. induction l as [|p l IH]; simpl; intros s H.
  { by injection H as <-. }
  apply bind_Ok_inv in H as (s' & Hs' & H).
  rewrite (insert_by_key_Permutation _ _ _ H). by rewrite (IH _ Hs').
Qed.

Lemma sorted_by_timestamp_Permutation (l s : list incident) :
  sorted_by_timestamp l = Ok s -> s ≡ₚ l.
Proof.
  unfold sorted_by_timestamp. intros H.
  apply bind_Ok_inv in H as (k & Hk & H).
  apply bind_Ok_inv in H as (s' & Hs' & H). injection H as <-.
  rewrite <- (decorate_snd _ _ Hk).
  apply Permutation_map. by apply sort_by_key_Permutation.
Qed.

Lemma dedup_loop_elem (rest : list incident) :
  forall acc out, dedup_loop fromisoformat rest acc = Ok out ->
  forall x, x ∈ out -> x ∈ (acc ++ rest)%list.
Proof.
  induction rest as [|inc rest IH]; simpl; intros acc out H x Hx.
  { injection H as <-. by rewrite app_nil_r. }
  apply bind_Ok_inv in H as (b & _ & H).
  specialize (IH _ _ H x Hx). destruct b.
  - rewrite elem_of_app in *. rewrite elem_of_cons. tauto.
  - by rewrite <- app_assoc in IH.
Qed.

Lemma remove_duplicates_elem (l d : list incident) :
  remove_duplicates fromisoformat l = Ok d -> forall x, x ∈ d -> x ∈ l.
Proof.
  unfold remove_duplicates. destruct l as [|y l].
  { intros H. by injection H as <-. }
  intros H x Hx. apply bind_Ok_inv in H as (s & Hs & H).
  pose proof (dedup_loop_elem _ _ _ H x Hx) as Hin. simpl in Hin.
  by rewrite (sorted_by_timestamp_Permutation _ _ Hs) in Hin.
Qed.

Lemma select_unprocessed_elem (table : list Row.t) r :
  r ∈ select_unprocessed table -> r ∈ table.
Proof.
  unfold select_unprocessed, order_by_timestamp_desc.
  rewrite stable_sort_Permutation, list_elem_of_filter. tauto.
Qed.

Lemma update_processed_marks ids (table : list Row.t) r :
  r ∈ table -> any_eq (Row.incident_id r) ids = true ->
  Row.set_processed r ∈ update_processed ids table.
Proof.
  intros Hr Hid. unfold update_processed.
  apply list_elem_of_In, in_map_iff. exists r. rewrite Hid.
  split; [done|]. by apply list_elem_of_In.
Qed.

Lemma select_processed_nonempty (table : list Row.t) r :
  r ∈ table -> Row.processed r = true -> select_processed table <> [].
Proof.
  intros Hr Hp. unfold select_processed, order_by_timestamp_desc.
  assert (Hf : r ∈ filter (fun r => Row.processed r = true) table)
    by (by apply list_elem_of_filter).
  rewrite <- (stable_sort_Permutation
                (fun a b => Row.timestamp b <? Row.timestamp a)) in Hf.
  destruct (stable_sort _ _) as [|x xs]; [by apply elem_of_nil in Hf|].
  done.
Qed.

(** When the filter stage reports a non-zero count, the store holds a
    processed row when the stage ends. *)
Lemma filter_and_clean_data_marks (e : env) (w w1 : world) (total filtered : Z) :
  filter_and_clean_data fromisoformat round6 e w = (w1, (total, filtered)) ->
  filtered <> 0 -> select_processed (db w1) <> [].
Proof.
  unfold filter_and_clean_data.
  destruct (negb (db_up e)); [intros [= <- <- <-]; done|].
  destruct (map (dict_of_row (db_utcoffset e)) (select_unprocessed (db w)))
    as [|i0 raw0] eqn:Eraw; [intros [= <- <- <-]; done|].
  rewrite <- Eraw.
  destruct (filter_valid fromisoformat (now e) _) as [valid|] eqn:Ev;
    [|intros [= <- <- <-]; done].
  destruct (remove_duplicates fromisoformat valid) as [dedup|] eqn:Ed;
    [|intros [= <- <- <-]; done].
  destruct (homogenize_incidents round6 dedup) as [hs logged] eqn:Eh.
  destruct hs as [|h hs]; [intros [= <- <- <-]; done|].
  intros [= <- <- <-] _. simpl.
  assert (Hh : In h (fst (homogenize_incidents round6 dedup)))
    by (rewrite Eh; by left).
  apply homogenize_incidents_elem in Hh as (inc & Hinc & Hhom).
  apply list_elem_of_In in Hinc.
  apply (remove_duplicates_elem _ _ Ed) in Hinc.
  apply (filter_valid_elem _ _ _ Ev) in Hinc.
  apply list_elem_of_In, in_map_iff in Hinc as (r & <- & Hr).
  apply list_elem_of_In, select_unprocessed_elem in Hr.
  destruct (homogenize_incident_inv _ _ Hhom)
    as (ty & rd & rs & _ & _ & _ & _ & _ & Hid).
  simpl in Hid.
  apply (select_processed_nonempty _ (Row.set_processed r)); [|done].
  apply update_processed_marks; [done|].
  simpl. rewrite Hid. simpl. by rewrite String.eqb_refl.
Qed.

(** C8, as amended: with the store reachable and no processed row, the
    exporter returns the empty path and logs a warning, nothing else
    changes; and a run of the pipeline whose filter stage ends with no
    processed row in the store ends right there with the entry
    [No data to process]: it logs nothing more and leaves the cache and the
    files as they were, so no report is written. *)
Theorem C8_zero_row_export (e : env) (w : world) :
  (db_up e = true -> select_processed (db w) = [] ->
   export_for_pig_processing fmt e w
   = (logger WARNING "No processed incidents found for export" w, ""))
  /\ (let started :=
        logger INFO "Step 1: Filtering and cleaning data"
          (logger INFO "Starting data processing pipeline" w) in
      let filtered := fst (filter_and_clean_data fromisoformat round6 e started) in
      select_processed (db filtered) = [] ->
      process_data_pipeline fromisoformat round6 fmt e w
      = logger INFO "No data to process" filtered
      /\ redis (process_data_pipeline fromisoformat round6 fmt e w) = redis w
      /\ files (process_data_pipeline fromisoformat round6 fmt e w) = files w).
Proof.
  split.
  - intros Hup Hsel. unfold export_for_pig_processing.
    by rewrite Hup, Hsel.
  - intros started filtered Hsel.
    assert (Hp : process_data_pipeline fromisoformat round6 fmt e w
                 = logger INFO "No data to process" filtered).
    { unfold process_data_pipeline. fold started.
      subst filtered.
      destruct (filter_and_clean_data fromisoformat round6 e started)
        as [w1 [total n]] eqn:E.
      destruct (Z.eqb_spec n 0) as [_|Hn]; [done|].
      by destruct (filter_and_clean_data_marks _ _ _ _ _ E Hn). }
    rewrite Hp. split; [done|].
    destruct (filter_and_clean_data_frame e started)
      as [Hr Hf].
    split; simpl; [apply Hr | apply Hf].
Qed.

(** ** Export *)

Lemma concat_cons (s : string) (l : list string) :
  String.concat "" (s :: l) = s ++ String.concat "" l.
Proof.
  destruct l as [|t l]; simpl; [by rewrite CsvFacts.append_empty_r|done].
Qed.

(** Reading the exported artifact gives the header and, for each row, the
    cells as the code prepared them. *)
Lemma reader_to_csv (rows : list Row.t) :
  Csv.reader (to_csv fmt rows) = csv_header :: map (export_cells fmt) rows.
Proof.
  unfold Csv.reader, to_csv, newline.
  rewrite CsvFacts.append_cons, CsvFacts.append_nil_l.
  rewrite CsvFacts.read_writerow by done. f_equal.
  induction rows as [|r rows IH]; [reflexivity|].
  rewrite !map_cons, concat_cons.
  rewrite CsvFacts.append_assoc, CsvFacts.append_cons, CsvFacts.append_nil_l.
  rewrite CsvFacts.read_writerow by done. by f_equal.
Qed.

Lemma length_double_quotes (s : string) :
  String.length (double_quotes s) = (String.length s + count_quotes s)%nat.
Proof.
  unfold double_quotes. induction s as [|c s IH]; [done|].
  cbn [Str.replace count_quotes]. destruct (Ascii.eqb c Csv.quotechar).
  - rewrite !CsvFacts.append_cons, CsvFacts.append_nil_l.
    cbn [String.length]. rewrite IH. lia.
  - cbn [String.length]. rewrite IH. lia.
Qed.

Lemma contains_count_quotes (s : string) :
  Str.contains Csv.quotechar s = true -> (0 < count_quotes s)%nat.
Proof.
  induction s as [|c s IH]; cbn [Str.contains count_quotes]; [discriminate|].
  destruct (Ascii.eqb c Csv.quotechar); simpl orb; [lia|].
  intros H. apply IH in H. lia.
Qed.

Lemma double_quotes_changes (s : string) :
  Str.contains Csv.quotechar s = true -> double_quotes s <> s.
Proof.
  intros H Heq. apply contains_count_quotes in H.
  pose proof (length_double_quotes s) as Hl. rewrite Heq in Hl. lia.
Qed.


End Properties.

(** * Concrete runs *)

Module Examples.

(** Stand-ins for the library functions the processor is parametric in: no
    string is taken for an ISO timestamp, rounding keeps the coordinate, and
    numbers are printed in decimal. *)
Definition no_iso : string -> option datetime := fun _ => None.
Definition round_id : float -> float := fun x => x.
Definition plain_format : pandas_format :=
  {| fmt_float := fun _ => "0.0";
     fmt_severity := fun v => match v with
                              | Some n => pretty n
                              | None => ""
                              end;
     fmt_timestamp := fun t => pretty t |}.

Definition seconds (n : Z) : Z := n * microseconds_per_second.

(** Event A and two later reports of it, B (100 s later) and C (50 s later),
    each within 0.001 degrees of A. *)
Definition row_A : Row.t :=
  Row.mk "A" "accidente" (Some "choque en la via") (-33.45) (-70.66)
    (Some "Alameda") (Some "Santiago") (Some "santiago") (Some 3)
    (seconds 0) (Some "waze") false.

Definition row_B : Row.t :=
  Row.mk "B" "accidente" (Some "choque multiple") (-33.4505) (-70.6605)
    (Some "Alameda") (Some "Santiago") (Some "santiago") (Some 47)
    (seconds 100) (Some "waze") false.

Definition row_C : Row.t :=
  Row.mk "C" "accidente" (Some "accidente leve") (-33.4495) (-70.6595)
    (Some "Alameda") (Some "Santiago") (Some "santiago") (Some 999)
    (seconds 50) (Some "waze") false.

(** A report of event A with the timestamp of A. *)
Definition row_T : Row.t :=
  Row.mk "T" "accidente" (Some "choque, dos autos") (-33.4502) (-70.6602)
    (Some "Alameda") (Some "Santiago") (Some "santiago") (Some 3)
    (seconds 0) (Some "waze") false.

(** A report exactly 300 s after A. *)
Definition row_L : Row.t :=
  Row.mk "L" "accidente" (Some "choque en la via") (-33.4505) (-70.6605)
    (Some "Alameda") (Some "Santiago") (Some "santiago") (Some 3)
    (seconds 300) (Some "waze") false.

(** A report whose comuna is NULL. *)
Definition row_N : Row.t :=
  Row.mk "N" "atasco" (Some "taco largo") (-33.5) (-70.6)
    (Some "Vicuna Mackenna") (Some "Santiago") None (Some 2)
    (seconds 10) (Some "waze") false.

(** A report whose description is NULL. *)
Definition row_D : Row.t :=
  Row.mk "D" "atasco" None (-33.5) (-70.6)
    (Some "Vicuna Mackenna") (Some "Santiago") (Some "santiago") (Some 2)
    (seconds 10) (Some "waze") false.

Definition quoted_description : string :=
  "He said, " ++ String Csv.quotechar "slow down" ++ String Csv.quotechar "".

Definition doubled_description : string :=
  "He said, " ++ String Csv.quotechar (String Csv.quotechar "slow down")
  ++ String Csv.quotechar (String Csv.quotechar "").

(** A processed row whose description holds a comma and quotes. *)
Definition row_Q : Row.t :=
  Row.mk "Q" "peligro" (Some quoted_description) (-33.45) (-70.66)
    (Some "Alameda") (Some "Santiago") (Some "santiago") (Some 3)
    (seconds 0) (Some "waze") true.

Definition inc_A : incident := dict_of_row 0 row_A.
Definition inc_B : incident := dict_of_row 0 row_B.
Definition inc_C : incident := dict_of_row 0 row_C.
Definition inc_T : incident := dict_of_row 0 row_T.
Definition inc_L : incident := dict_of_row 0 row_L.
Definition inc_N : incident := dict_of_row 0 row_N.

(** Record A without its [incident_id] key. *)
Definition inc_no_id : incident :=
  mkIncident Missing (incident_type inc_A) (description inc_A)
    (latitude inc_A) (longitude inc_A) (street inc_A) (city inc_A)
    (comuna inc_A) (severity inc_A) (timestamp inc_A) (source inc_A).

(** The external engine: the Pig run writes one result file. *)
Definition pig_writes (cmd : string) (fs : gmap string string)
  : Z * gmap string string :=
  if String.prefix "pig" cmd
  then (0, <["/output/incidents_by_comuna/part-r-00000" := "Santiago,1"]> fs)
  else (0, fs).

(** A run ten minutes after event A, and the next one thirty minutes later. *)
Definition env1 : env :=
  {| db_up := true; db_utcoffset := 0; redis_up := true;
     now := seconds 600; unix_time := 600; elapsed := 1.5%float;
     run_command := pig_writes |}.

Definition env2 : env :=
  {| db_up := true; db_utcoffset := 0; redis_up := true;
     now := seconds 2400; unix_time := 2400; elapsed := 1.5%float;
     run_command := pig_writes |}.


Definition world0 (rows : list Row.t) : world := mkWorld rows ∅ ∅ [].

(** Identifier and [processed] flag of every row. *)
Definition flags (w : world) : list (string * bool) :=
  map (fun r => (Row.incident_id r, Row.processed r)) (db w).

End Examples.

Import Examples.

(** ** C1 *)

(** C1 (code bug at a concrete store): B is a valid duplicate of A. The
    filter stage of the first run flags A only; B is fetched again as
    unprocessed by the next run, where it is alone in its batch, admitted as
    canonical and flagged: one event, two canonical records. *)
Theorem C1_duplicate_fetched_again :
  let w0 := world0 [row_A; row_B] in
  let w1 := fst (filter_and_clean_data no_iso round_id env1 w0) in
  let w2 := fst (filter_and_clean_data no_iso round_id env2 w1) in
  is_valid_incident no_iso (now env1) inc_B = Ok true
  /\ are_incidents_duplicate no_iso inc_B inc_A = Ok true
  /\ flags w1 = [("A", true); ("B", false)]
  /\ select_unprocessed (db w1) = [row_B]
  /\ flags w2 = [("A", true); ("B", true)].
Proof. vm_compute. repeat split; reflexivity. Qed.

(** ** C2 *)






(** The canonical record of that batch is A, in whatever order it comes. *)
Example batch_ABC_canonical :
  Forall (fun l => remove_duplicates no_iso l = Ok [inc_A])
    [ [inc_A; inc_B; inc_C]; [inc_A; inc_C; inc_B]; [inc_B; inc_A; inc_C];
      [inc_B; inc_C; inc_A]; [inc_C; inc_A; inc_B]; [inc_C; inc_B; inc_A] ].
Proof. repeat constructor; vm_compute; reflexivity. Qed.

(** ** C3 *)

(** C3 (code bug at a concrete row): the description of row Q holds a comma
    and two quotes. Read back from the exported artifact it has every quote
    doubled, so it is not the original description. *)
Theorem C3_export_doubles_quotes :
  Row.description row_Q = Some quoted_description
  /\ Csv.reader (to_csv plain_format [row_Q])
     = [csv_header; export_cells plain_format row_Q]
  /\ nth 2 (export_cells plain_format row_Q) "" = doubled_description
  /\ doubled_description <> quoted_description.
Proof.
  split; [reflexivity|].
  split; [apply reader_to_csv|].
  split; [reflexivity|].
  change doubled_description with (double_quotes quoted_description).
  apply double_quotes_changes. reflexivity.
Qed.

(** ** C4 *)

(** C4 (witness): A and L are 300 s apart, the boundary, and are
    duplicates. *)
Lemma C4_witness :
  (is_valid_incident no_iso (now env1) inc_A = Ok true
   /\ is_valid_incident no_iso (now env1) inc_L = Ok true)
  /\ time_delta no_iso inc_A inc_L = Some (seconds 300)
  /\ are_incidents_duplicate no_iso inc_A inc_L = Ok true.
Proof.
  split; [split; vm_compute; reflexivity|].
  split; [vm_compute; reflexivity|].
  destruct (C4_duplicate_rule no_iso (now env1) inc_A inc_L) as [H _];
    [vm_compute; reflexivity | vm_compute; reflexivity |].
  rewrite H. vm_compute. reflexivity.
Defined.

(** One microsecond more and they are not. *)
Example C4_beyond_T :
  are_incidents_duplicate no_iso inc_A
    (dict_of_row 0
       (Row.mk "M" "accidente" (Some "choque en la via") (-33.4505)
          (-70.6605) (Some "Alameda") (Some "Santiago") (Some "santiago")
          (Some 3) (seconds 300 + 1) (Some "waze") false))
  = Ok false.
Proof. vm_compute. reflexivity. Qed.

(** ** C5 *)



(** ** C6 *)

(** C6 (witness): raw severity 47 of record B becomes 4. *)
Lemma C6_witness :
  (normalizable inc_B = true /\ severity inc_B = Val 47)
  /\ exists h,
       fst (homogenize_incidents round_id [inc_B]) = [h]
       /\ severity h = Val (normalized_severity 47)
       /\ normalized_severity 47 = 4
       /\ normalized_severity 999 = 10.
Proof.
  split; [split; reflexivity|].
  apply (C6_severity_rescale round_id inc_B 47); reflexivity.
Defined.

(** ** C7 *)

(** C7 (counterexample): a record without its identifier is logged and
    skipped: one record in, none out. *)
Lemma C7_counterexample :
  incident_id inc_no_id = Missing
  /\ homogenize_incidents round_id [inc_no_id]
     = ([], [(ERROR, "Error homogenizing incident {}: {}")])
  /\ length (fst (homogenize_incidents round_id [inc_no_id]))
     <> length [inc_no_id].
Proof. vm_compute. repeat split; try reflexivity. discriminate. Qed.

(** The record of the store whose comuna is NULL goes the same way. *)
Example null_comuna_skipped :
  comuna inc_N = PyNone
  /\ homogenize_incidents round_id [inc_N]
     = ([], [(ERROR, "Error homogenizing incident {}: {}")]).
Proof. vm_compute. split; reflexivity. Qed.

(** A batch of two records the Normalizer keeps: two records out, the second
    with the placeholder for its blank description. *)
Example C7_two_records :
  let blank :=
    mkIncident (Val "E") (Val "Clima") (Val "   ") (latitude inc_A)
      (longitude inc_A) Missing Missing Missing Missing (timestamp inc_A)
      Missing in
  map (fun h => (incident_type h, description h, severity h, source h))
    (fst (homogenize_incidents round_id [inc_C; blank]))
  = [ (Val "ACCIDENTE", Val "accidente leve", Val 10, Val "waze");
      (Val "CLIMA", Val "Incidente de tipo CLIMA", Val 0, Val "waze") ].
Proof. vm_compute. reflexivity. Qed.

(** ** C8 *)

(** C8 (counterexample): on an empty store the run ends early and the cache
    holds no report. *)
Lemma C8_counterexample :
  let w' := process_data_pipeline no_iso round_id plain_format env1
              (world0 []) in
  select_processed (db w') = []
  /\ last (log w') = Some (INFO, "No data to process")
  /\ redis w' !! "processing:last_report" = None
  /\ redis w' = ∅.
Proof. vm_compute. repeat split; reflexivity. Qed.

(** ** C9 *)

(** After a complete run at time 600, the result stored under
    [analysis:comuna_counts] is served until time 4200 and not from then
    on. *)
Example C9_expiry :
  let w' := process_data_pipeline no_iso round_id plain_format env1
              (world0 [row_A; row_N]) in
  redis w' !! "analysis:comuna_counts" = Some (Text "Santiago,1", 4200)
  /\ GET 4199 "analysis:comuna_counts" (redis w') = Some (Text "Santiago,1")
  /\ GET 4200 "analysis:comuna_counts" (redis w') = None
  /\ GET 4200 "processing:last_report" (redis w') = None.
Proof. vm_compute. repeat split; reflexivity. Qed.

(** ** C10 *)

(** C10 (witness): A and N are fetched; N is dropped by the Normalizer, the
    run completes and its report counts no error. *)
Lemma C10_witness :
  let w' := process_data_pipeline no_iso round_id plain_format env1
              (world0 [row_A; row_N]) in
  (run_completed w'
   /\ In (ERROR, "Error homogenizing incident {}: {}") (log w'))
  /\ exists rep,
       redis w' !! "processing:last_report"
       = Some (Json rep, unix_time env1 + 3600)
       /\ errors_count (processing_metrics rep) = 0.
Proof.
  split.
  - split; [vm_compute; reflexivity|]. vm_compute. tauto.
  - apply (C10_errors_count_zero no_iso round_id plain_format env1
             (world0 [row_A; row_N])).
    vm_compute. reflexivity.
Defined.

(** * Further properties of the processor *)

(** ** More facts about binary64 subtraction *)

Lemma SFabs_binary_round_aux prec emax s1 s2 mx ex lx :
  SFabs (binary_round_aux prec emax s1 mx ex lx)
  = SFabs (binary_round_aux prec emax s2 mx ex lx).
Proof.
  unfold binary_round_aux.
  destruct (shr_fexp prec emax mx ex lx) as [mrs' e'].
  destruct (shr_fexp prec emax _ e' loc_Exact) as [mrs'' e''].
  destruct (shr_m mrs'') as [|p|p]; try reflexivity.
  destruct (e'' <=? emax - prec); reflexivity.
Qed.

Lemma SFabs_binary_normalize_opp prec emax m e sz1 sz2 :
  SFabs (binary_normalize prec emax m e sz1)
  = SFabs (binary_normalize prec emax (- m) e sz2).
Proof.
  unfold binary_normalize, binary_round.
  destruct m as [|p|p]; simpl; try reflexivity;
    destruct (shl_align _ _ _) as [mz ez]; apply SFabs_binary_round_aux.
Qed.

Lemma SFabs_SFsub_comm prec emax x y :
  SFabs (SFsub prec emax x y) = SFabs (SFsub prec emax y x).
Proof.
  destruct x as [sx|sx| |sx mx ex], y as [sy|sy| |sy my ey]; simpl;
    try reflexivity;
    try (destruct sx, sy; reflexivity).
  rewrite (Z.min_comm ey ex).
  rewrite (SFabs_binary_normalize_opp prec emax _ _ false false).
  f_equal. f_equal. lia.
Qed.

(** [abs(x - y) == abs(y - x)], bit for bit. *)
Lemma abs_sub_comm (x y : float) : abs (x - y) = abs (y - x).
Proof.
  apply Prim2SF_inj.
  rewrite !FloatAxioms.abs_spec, !FloatAxioms.sub_spec.
  apply SFabs_SFsub_comm.
Qed.

Lemma SFsub_diag prec emax x :
  SFfinite x = true -> SFabs (SFsub prec emax x x) = S754_zero false.
Proof.
  destruct x as [s|s| |s m e]; simpl; try discriminate; intros _.
  - destruct s; reflexivity.
  - rewrite Z.sub_diag. reflexivity.
Qed.

(** [abs(x - x)] is zero for a finite [x], and zero is within the distance
    threshold. *)
Lemma abs_sub_diag_within (x : float) :
  SFfinite (Prim2SF x) = true ->
  (duplicate_distance_threshold <? abs (x - x))%float = false.
Proof.
  intros H. rewrite FloatAxioms.ltb_spec, FloatAxioms.abs_spec,
    FloatAxioms.sub_spec.
  unfold SF64sub. rewrite (SFsub_diag prec emax _ H). reflexivity.
Qed.

Section DuplicateTest.

Context (fromisoformat : string -> option datetime).

Lemma str_ne_sym a b : str_ne a b = str_ne b a.
Proof.
  destruct a as [x|], b as [y|]; simpl; try reflexivity.
  by rewrite String.eqb_sym.
Qed.

Lemma abs_diff_sym a b : abs_diff a b = abs_diff b a.
Proof.
  destruct a as [x|], b as [y|]; simpl; try reflexivity.
  by rewrite abs_sub_comm.
Qed.

Lemma dt_sub_sym a b :
  match dt_sub a b, dt_sub b a with
  | Ok x, Ok y => y = - x
  | Raise _, Raise _ => True
  | _, _ => False
  end.
Proof.
  unfold dt_sub. destruct (utcoffset a), (utcoffset b); simpl; try done; lia.
Qed.

(** The timestamp test of lines 162-175 does not depend on the order of the
    two records. *)
Lemma time_test_sym (ta tb : field tsval) :
  try_except
    (let! time1 := subscript ta in
     let! time2 := subscript tb in
     let! time1 := to_datetime fromisoformat time1 in
     let! time2 := to_datetime fromisoformat time2 in
     let! td := time_sub time1 time2 in
     if total_seconds_gt td duplicate_time_threshold
     then Ok false else Ok true) false
  = try_except
      (let! time1 := subscript tb in
       let! time2 := subscript ta in
       let! time1 := to_datetime fromisoformat time1 in
       let! time2 := to_datetime fromisoformat time2 in
       let! td := time_sub time1 time2 in
       if total_seconds_gt td duplicate_time_threshold
       then Ok false else Ok true) false.
Proof.
  destruct ta as [| |ta], tb as [| |tb]; simpl; try reflexivity.
  - destruct (parse_timestamp fromisoformat tb); reflexivity.
  - destruct (parse_timestamp fromisoformat ta); reflexivity.
  - destruct (parse_timestamp fromisoformat ta) as [da|];
      destruct (parse_timestamp fromisoformat tb) as [db|]; simpl;
      try reflexivity.
    pose proof (dt_sub_sym da db) as H.
    destruct (dt_sub da db) as [x|], (dt_sub db da) as [y|]; simpl;
      try done.
    subst y. unfold total_seconds_gt. by rewrite Z.abs_opp.
Qed.

Lemma coordinate_test_sym {B : Type} (ca cb : field float)
    (k k' : float -> result B) :
  (forall d, k d = k' d) ->
  (let! c1 := subscript ca in
   let! c2 := subscript cb in
   let! diff := abs_diff c1 c2 in k diff)
  = (let! c1 := subscript cb in
     let! c2 := subscript ca in
     let! diff := abs_diff c1 c2 in k' diff).
Proof.
  intros H. destruct ca as [| |x], cb as [| |y]; simpl; try reflexivity.
  rewrite (abs_sub_comm y x). apply H.
Qed.

(** X1: the duplicate test does not depend on the order of its two
    arguments: it returns the same verdict, or raises the same exception,
    for [(a, b)] and for [(b, a)]. *)
Theorem are_incidents_duplicate_sym (a b : incident) :
  are_incidents_duplicate fromisoformat a b
  = are_incidents_duplicate fromisoformat b a.
Proof.
  unfold are_incidents_duplicate.
  assert (Hrest :
    (let! lat1 := subscript (latitude a) in
     let! lat2 := subscript (latitude b) in
     let! lat_diff := abs_diff lat1 lat2 in
     let! lon1 := subscript (longitude a) in
     let! lon2 := subscript (longitude b) in
     let! lon_diff := abs_diff lon1 lon2 in
     if ((duplicate_distance_threshold <? lat_diff)
         || (duplicate_distance_threshold <? lon_diff))%float
     then Ok false
     else
       Ok (try_except
             (let! time1 := subscript (timestamp a) in
              let! time2 := subscript (timestamp b) in
              let! time1 := to_datetime fromisoformat time1 in
              let! time2 := to_datetime fromisoformat time2 in
              let! td := time_sub time1 time2 in
              if total_seconds_gt td duplicate_time_threshold
              then Ok false else Ok true) false))
    = (let! lat1 := subscript (latitude b) in
       let! lat2 := subscript (latitude a) in
       let! lat_diff := abs_diff lat1 lat2 in
       let! lon1 := subscript (longitude b) in
       let! lon2 := subscript (longitude a) in
       let! lon_diff := abs_diff lon1 lon2 in
       if ((duplicate_distance_threshold <? lat_diff)
           || (duplicate_distance_threshold <? lon_diff))%float
       then Ok false
       else
         Ok (try_except
               (let! time1 := subscript (timestamp b) in
                let! time2 := subscript (timestamp a) in
                let! time1 := to_datetime fromisoformat time1 in
                let! time2 := to_datetime fromisoformat time2 in
                let! td := time_sub time1 time2 in
                if total_seconds_gt td duplicate_time_threshold
                then Ok false else Ok true) false))).
  { apply coordinate_test_sym. intros lat_diff.
    apply coordinate_test_sym. intros lon_diff.
    destruct (_ || _); [reflexivity|]. f_equal. apply time_test_sym. }
  destruct (incident_type a) as [| |tya], (incident_type b) as [| |tyb];
    simpl; try reflexivity; try exact Hrest.
  rewrite (String.eqb_sym tya tyb).
  destruct (negb (String.eqb tyb tya)); [reflexivity | exact Hrest].
Qed.

(** What [is_valid_incident] accepts has finite coordinates. *)
Lemma valid_finite_coordinates now_ inc :
  is_valid_incident fromisoformat now_ inc = Ok true ->
  exists ty lat lon t d,
    incident_type inc = Val ty /\ latitude inc = Val lat
    /\ longitude inc = Val lon /\ timestamp inc = Val t
    /\ parse_timestamp fromisoformat t = Ok d
    /\ SFfinite (Prim2SF lat) = true /\ SFfinite (Prim2SF lon) = true.
Proof.
  intros H.
  destruct (is_valid_incident_inv fromisoformat _ _ H)
    as (id & ty & lat & lon & t & d & _ & E2 & E3 & E4 & E5 & Hb & Hp & _).
  destruct (in_bounds_finite _ _ Hb) as [F1 F2].
  exists ty, lat, lon, t, d. repeat split; assumption.
Qed.

Lemma dt_sub_diag d : dt_sub d d = Ok 0.
Proof. unfold dt_sub. destruct (utcoffset d); f_equal; lia. Qed.

(** A record that passes validation is a duplicate of itself. *)
Lemma are_incidents_duplicate_refl now_ inc :
  is_valid_incident fromisoformat now_ inc = Ok true ->
  are_incidents_duplicate fromisoformat inc inc = Ok true.
Proof.
  intros H.
  destruct (valid_finite_coordinates _ _ H)
    as (ty & lat & lon & t & d & E1 & E2 & E3 & E4 & Hp & F1 & F2).
  unfold are_incidents_duplicate. rewrite E1, E2, E3, E4. simpl.
  rewrite String.eqb_refl. simpl.
  rewrite (abs_sub_diag_within lat F1), (abs_sub_diag_within lon F2). simpl.
  rewrite Hp. simpl. rewrite dt_sub_diag. reflexivity.
Qed.


(** X2: the duplicate test is reflexive on the records that pass
    validation, and it is not transitive: there are three validated records
    of which the second duplicates the first and the third the second, while
    the third does not duplicate the first. *)
Theorem are_incidents_duplicate_refl_not_trans :
  (forall now_ inc,
     is_valid_incident fromisoformat now_ inc = Ok true ->
     are_incidents_duplicate fromisoformat inc inc = Ok true)
  /\ exists now_ a b c,
       is_valid_incident fromisoformat now_ a = Ok true
       /\ is_valid_incident fromisoformat now_ b = Ok true
       /\ is_valid_incident fromisoformat now_ c = Ok true
       /\ are_incidents_duplicate fromisoformat b a = Ok true
       /\ are_incidents_duplicate fromisoformat c b = Ok true
       /\ are_incidents_duplicate fromisoformat c a = Ok false.
Proof.
  split; [apply are_incidents_duplicate_refl|].
  exists (now env1), inc_A, inc_B,
    (dict_of_row 0
       (Row.mk "M" "accidente" (Some "choque en la via") (-33.4505)
          (-70.6605) (Some "Alameda") (Some "Santiago") (Some "santiago")
          (Some 3) (seconds 350) (Some "waze") false)).
  repeat split; vm_compute; reflexivity.
Qed.

Lemma td_days_mono (x y : Z) : x <= y -> td_days x <= td_days y.
Proof.
  intros H. unfold td_days. apply Z.div_le_mono; [reflexivity | exact H].
Qed.

(** X3: the validator has no test against the future: a record that passes
    at one time of validation passes at every earlier time, so a record
    dated after the time of validation is never rejected for its date. *)
Theorem is_valid_incident_earlier (now1 now2 : Z) (inc : incident) :
  is_valid_incident fromisoformat now1 inc = Ok true ->
  now2 <= now1 ->
  is_valid_incident fromisoformat now2 inc = Ok true.
Proof.
  unfold is_valid_incident. intros H Hle.
  destruct (negb _); [discriminate|].
  destruct (subscript (latitude inc)) as [[lat|]|]; simpl in *;
    try discriminate;
    destruct (subscript (longitude inc)) as [[lon|]|]; simpl in *;
    try discriminate.
  destruct (negb (in_bounds lat lon)); [discriminate|].
  destruct (get_default (description inc) "") as [d|]; [|discriminate].
  destruct (_ <? 3)%nat; [discriminate|].
  destruct (subscript (timestamp inc)) as [[t|]|]; simpl in *;
    try discriminate.
  destruct (parse_timestamp fromisoformat t) as [dt|]; simpl in *;
    try discriminate.
  destruct (Z.ltb_spec 7 (td_days (now1 - wall dt))) as [|H1];
    [discriminate|].
  destruct (Z.ltb_spec 7 (td_days (now2 - wall dt))) as [H2|]; [|reflexivity].
  pose proof (td_days_mono (now2 - wall dt) (now1 - wall dt)). lia.
Qed.

End DuplicateTest.

(** ** Facts about [strip] *)

Module StrFacts.
Import Str.

Lemma rev_append_app (s acc : string) : rev_append s acc = rev s ++ acc.
Proof.
  unfold rev. revert acc. induction s as [|c s IH]; intros acc; simpl.
  { by rewrite CsvFacts.append_nil_l. }
  rewrite IH, (IH (String c "")).
  by rewrite CsvFacts.append_assoc, CsvFacts.append_cons,
    CsvFacts.append_nil_l.
Qed.

Lemma rev_cons (c : ascii) (s : string) :
  rev (String c s) = rev s ++ String c "".
Proof. unfold rev at 1. simpl. apply rev_append_app. Qed.

Lemma rev_snoc (s : string) (c : ascii) :
  rev (s ++ String c "") = String c (rev s).
Proof.
  induction s as [|d s IH].
  { by rewrite CsvFacts.append_nil_l. }
  rewrite CsvFacts.append_cons, !rev_cons, IH.
  by rewrite CsvFacts.append_cons.
Qed.

Lemma rev_involutive (s : string) : rev (rev s) = s.
Proof.
  induction s as [|c s IH]; [done|].
  by rewrite rev_cons, rev_snoc, IH.
Qed.

(** The text is empty or starts with a character that is not a space. *)
Definition starts_nonspace (s : string) : Prop :=
  match s with
  | String c _ => isspace c = false
  | EmptyString => True
  end.

Lemma lstrip_starts (s : string) : starts_nonspace (lstrip s).
Proof.
  induction s as [|c s IH]; simpl; [done|].
  destruct (isspace c) eqn:E; simpl; done.
Qed.

Lemma lstrip_id (s : string) : starts_nonspace s -> lstrip s = s.
Proof. destruct s as [|c s]; simpl; [done|]. by intros ->. Qed.

Lemma lstrip_snoc (s : string) (c : ascii) :
  isspace c = false -> lstrip (s ++ String c "") = lstrip s ++ String c "".
Proof.
  intros Hc. induction s as [|d s IH].
  { rewrite CsvFacts.append_nil_l. simpl. rewrite Hc.
    by rewrite CsvFacts.append_nil_l. }
  rewrite CsvFacts.append_cons. simpl. destruct (isspace d); [done|].
  by rewrite CsvFacts.append_cons.
Qed.

Lemma rstrip_cons (c : ascii) (s : string) :
  isspace c = false -> rstrip (String c s) = String c (rstrip s).
Proof.
  intros Hc. unfold rstrip. by rewrite rev_cons, lstrip_snoc, rev_snoc.
Qed.

Lemma rstrip_starts (s : string) :
  starts_nonspace s -> starts_nonspace (rstrip s).
Proof.
  destruct s as [|c s]; [done|]. simpl. intros Hc.
  by rewrite rstrip_cons.
Qed.

Lemma rstrip_ends (s : string) : starts_nonspace (rev (rstrip s)).
Proof. unfold rstrip. rewrite rev_involutive. apply lstrip_starts. Qed.

Lemma rstrip_id (s : string) : starts_nonspace (rev s) -> rstrip s = s.
Proof.
  intros H. unfold rstrip. by rewrite (lstrip_id _ H), rev_involutive.
Qed.

(** [s.strip().strip() == s.strip()] *)
Lemma strip_idempotent (s : string) : strip (strip s) = strip s.
Proof.
  unfold strip.
  rewrite (lstrip_id (rstrip (lstrip s)))
    by apply rstrip_starts, lstrip_starts.
  apply rstrip_id, rstrip_ends.
Qed.

End StrFacts.

(** * The Normalizer on its own output *)

Section Normalizer.

Context (round6 : float -> float).

Definition type_tags : list string :=
  [ "ACCIDENTE"; "ATASCO"; "CONSTRUCCION"; "PELIGRO"; "CLIMA"; "ALERTA";
    "OTRO" ].

Lemma standardized_type_tag (k : string) :
  default "OTRO" (type_mapping !! k) ∈ type_tags.
Proof.
  destruct (type_mapping !! k) as [v|] eqn:E; simpl.
  - apply elem_of_list_to_map_2 in E.
    repeat (apply elem_of_cons in E as [E|E];
            [injection E as Hk Hv; subst v; unfold type_tags;
             rewrite !elem_of_cons; tauto|]).
    by apply elem_of_nil in E.
  - unfold type_tags. rewrite !elem_of_cons. tauto.
Qed.

(** A tag is mapped to itself, and the placeholder built from it is already
    trimmed. *)
Lemma type_tag_fixed (tag : string) :
  tag ∈ type_tags ->
  default "OTRO" (type_mapping !! Str.lower tag) = tag
  /\ Str.strip ("Incidente de tipo " ++ tag) = "Incidente de tipo " ++ tag.
Proof.
  unfold type_tags. intros H.
  repeat (apply elem_of_cons in H as [->|H];
          [split; vm_compute; reflexivity|]).
  by apply elem_of_nil in H.
Qed.

Lemma comuna_fixed (k c : string) :
  comuna_mapping !! k = Some c ->
  comuna_mapping !! Str.strip (Str.lower c) = Some c.
Proof.
  intros E. apply elem_of_list_to_map_2 in E.
  repeat (apply elem_of_cons in E as [E|E];
          [injection E as Hk Hc; subst c; vm_compute; reflexivity|]).
  by apply elem_of_nil in E.
Qed.

Lemma rescale_severity_range (s : Z) :
  (if 10 <? s then Z.min (s / 10) 10 else s) <= 10.
Proof. destruct (Z.ltb_spec 10 s); lia. Qed.

Lemma rescale_severity_fixed (s : Z) :
  s <= 10 -> (if 10 <? s then Z.min (s / 10) 10 else s) = s.
Proof. intros H. destruct (Z.ltb_spec 10 s); [lia | done]. Qed.

Lemma subscript_to_field {A : Type} (f : field A) (v : option A) :
  subscript f = Ok v -> subscript (to_field v) = Ok v.
Proof. destruct f; simpl; intros [= <-]; done. Qed.

Lemma to_field_get_default {A : Type} (v : option A) (d : A) :
  to_field (get_default (to_field v) d) = to_field v.
Proof. by destruct v. Qed.

(** X4: the Normalizer is idempotent, provided that rounding a rounded
    coordinate changes nothing: a normalized record is normalized to
    itself. *)
Theorem homogenize_incident_idempotent (inc h : incident) :
  (forall x, round6 (round6 x) = round6 x) ->
  homogenize_incident round6 inc = Ok h ->
  homogenize_incident round6 h = Ok h.
Proof.
  intros Hround H. unfold homogenize_incident in H.
  apply bind_Ok_inv in H as (ty & Hty & H).
  apply bind_Ok_inv in H as (co & Hco & H).
  apply str_method_inv in Hco as (_ & rawco & Hrawco & ->).
  apply bind_Ok_inv in H as (de & Hde & H).
  apply bind_Ok_inv in H as (se & Hse & H).
  apply bind_Ok_inv in H as (id & Hid & H).
  apply bind_Ok_inv in H as (la & Hla & H).
  apply bind_Ok_inv in H as (la' & Hla' & H).
  apply bind_Ok_inv in H as (lo & Hlo & H).
  apply bind_Ok_inv in H as (lo' & Hlo' & H).
  apply bind_Ok_inv in H as (st & Hst & H).
  apply str_method_inv in Hst as (_ & rawst & _ & ->).
  apply bind_Ok_inv in H as (ci & Hci & H).
  apply str_method_inv in Hci as (_ & rawci & _ & ->).
  apply bind_Ok_inv in H as (ts & Hts & H).
  apply str_method_inv in Hde as (_ & rawde & _ & ->).
  unfold rescale_severity in Hse.
  destruct (get_default (severity inc) 0) as [s|]; [|discriminate].
  injection Hse as <-.
  destruct la as [x|]; [|discriminate]. injection Hla' as <-.
  destruct lo as [y|]; [|discriminate]. injection Hlo' as <-.
  set (tag := default "OTRO" (type_mapping !! ty)) in *.
  destruct (type_tag_fixed tag (standardized_type_tag ty)) as [Htag Hplace].
  set (d := if Str.is_empty (Str.strip rawde)
            then "Incidente de tipo " ++ tag else Str.strip rawde) in *.
  assert (Hd : Str.strip d = d /\ Str.is_empty d = false).
  { subst d. destruct (Str.is_empty (Str.strip rawde)) eqn:E.
    - split; [exact Hplace | reflexivity].
    - split; [apply StrFacts.strip_idempotent | exact E]. }
  destruct Hd as [Hd1 Hd2].
  injection H as <-.
  unfold homogenize_incident. simpl.
  fold tag. rewrite Htag. fold d. rewrite Hd1, Hd2.
  rewrite (rescale_severity_fixed _ (rescale_severity_range s)).
  rewrite (subscript_to_field _ _ Hid), (subscript_to_field _ _ Hts).
  simpl. rewrite !Hround, !StrFacts.strip_idempotent.
  rewrite !to_field_get_default.
  rewrite Hrawco. simpl.
  destruct (comuna_mapping !! Str.strip (Str.lower rawco)) as [c|] eqn:Ec;
    simpl.
  - rewrite (comuna_fixed _ _ Ec). reflexivity.
  - rewrite Ec. reflexivity.
Qed.

(** X5: what the Normalizer returns is in range: the type is one of the
    seven tags, the severity is at most 10 (a raw severity at most 10 is
    kept as it is, a negative one included), and description, street and
    city are trimmed texts. *)
Theorem homogenize_incident_range (inc h : incident) :
  homogenize_incident round6 inc = Ok h ->
  exists tag sev d st ci,
    incident_type h = Val tag /\ tag ∈ type_tags
    /\ severity h = Val sev /\ sev <= 10
    /\ (forall raw, severity inc = Val raw -> raw <= 10 -> sev = raw)
    /\ description h = Val d /\ Str.strip d = d
    /\ street h = Val st /\ Str.strip st = st
    /\ city h = Val ci /\ Str.strip ci = ci.
Proof.
  intros H. unfold homogenize_incident in H.
  apply bind_Ok_inv in H as (ty & Hty & H).
  apply bind_Ok_inv in H as (co & Hco & H).
  apply bind_Ok_inv in H as (de & Hde & H).
  apply bind_Ok_inv in H as (se & Hse & H).
  apply bind_Ok_inv in H as (id & Hid & H).
  apply bind_Ok_inv in H as (la & Hla & H).
  apply bind_Ok_inv in H as (la' & Hla' & H).
  apply bind_Ok_inv in H as (lo & Hlo & H).
  apply bind_Ok_inv in H as (lo' & Hlo' & H).
  apply bind_Ok_inv in H as (st & Hst & H).
  apply str_method_inv in Hst as (_ & rawst & _ & ->).
  apply bind_Ok_inv in H as (ci & Hci & H).
  apply str_method_inv in Hci as (_ & rawci & _ & ->).
  apply bind_Ok_inv in H as (ts & Hts & H).
  apply str_method_inv in Hde as (_ & rawde & _ & ->).
  unfold rescale_severity in Hse.
  destruct (get_default (severity inc) 0) as [s|] eqn:Es; [|discriminate].
  injection Hse as <-. injection H as <-. simpl.
  set (tag := default "OTRO" (type_mapping !! ty)).
  destruct (type_tag_fixed tag (standardized_type_tag ty)) as [_ Hplace].
  eexists _, _, _, _, _.
  split; [reflexivity|]. split; [apply standardized_type_tag|].
  split; [reflexivity|]. split; [apply rescale_severity_range|].
  split.
  { intros raw Hraw Hle. rewrite Hraw in Es. injection Es as <-.
    by apply rescale_severity_fixed. }
  split; [reflexivity|]. split.
  { destruct (Str.is_empty (Str.strip rawde));
      [exact Hplace | apply StrFacts.strip_idempotent]. }
  split; [reflexivity|]. split; [apply StrFacts.strip_idempotent|].
  split; [reflexivity | apply StrFacts.strip_idempotent].
Qed.

End Normalizer.

(** * The store across runs *)

(** [main]: the pipeline runs once at the start and then at every tick of
    the schedule; [es] holds what each run reads from outside, in order. *)
Definition runs (fromisoformat : string -> option datetime)
    (round6 : float -> float) (fmt : pandas_format)
    (es : list env) (w : world) : world :=
  fold_left (fun w e => process_data_pipeline fromisoformat round6 fmt e w)
    es w.

(** [r'] is the row [r], or [r] with its flag set. *)
Definition flagged_from (r r' : Row.t) : Prop :=
  r' = r \/ r' = Row.set_processed r.

(** The rows a query for unprocessed rows returns. *)
Definition unprocessed (table : list Row.t) : list Row.t :=
  filter (fun r => Row.processed r = false) table.

Section Stages.

Context (fromisoformat : string -> option datetime).
Context (round6 : float -> float).
Context (fmt : pandas_format).

Lemma flagged_from_trans r1 r2 r3 :
  flagged_from r1 r2 -> flagged_from r2 r3 -> flagged_from r1 r3.
Proof.
  intros [->| ->] [->| ->]; unfold flagged_from; auto.
Qed.

Lemma Forall2_flagged_from_refl (table : list Row.t) :
  Forall2 flagged_from table table.
Proof. induction table; constructor; [by left|done]. Qed.

Lemma Forall2_flagged_from_trans (t1 t2 t3 : list Row.t) :
  Forall2 flagged_from t1 t2 -> Forall2 flagged_from t2 t3 ->
  Forall2 flagged_from t1 t3.
Proof.
  intros H. revert t3. induction H as [|r1 r2 t1 t2 Hr _ IH]; intros t3 H3.
  { by inversion H3. }
  inversion H3 as [|? r3 ? t3' Hr3 Ht3]; subst.
  constructor; [by eapply flagged_from_trans | by apply IH].
Qed.

Lemma update_processed_flagged ids (table : list Row.t) :
  Forall2 flagged_from table (update_processed ids table).
Proof.
  unfold update_processed. induction table as [|r table IH]; simpl;
    constructor; [|done].
  destruct (any_eq _ _); [by right | by left].
Qed.

(** ** What each stage does to the store *)

Lemma filter_and_clean_data_db (e : env) (w : world) :
  Forall2 flagged_from (db w)
    (db (fst (filter_and_clean_data fromisoformat round6 e w))).
Proof.
  unfold filter_and_clean_data.
  repeat case_match; simpl;
    try apply Forall2_flagged_from_refl; apply update_processed_flagged.
Qed.

Lemma export_for_pig_processing_db (e : env) (w : world) :
  db (fst (export_for_pig_processing fmt e w)) = db w.
Proof. unfold export_for_pig_processing. repeat case_match; done. Qed.

Lemma run_pig_analysis_db (e : env) (path : string) (w : world) :
  db (fst (run_pig_analysis e path w)) = db w.
Proof. unfold run_pig_analysis. repeat case_match; done. Qed.

Lemma cache_output_file_db (e : env) entry (w : world) :
  db (cache_output_file e entry w) = db w.
Proof. unfold cache_output_file. destruct entry. repeat case_match; done. Qed.

Lemma cache_analysis_results_db (e : env) (w : world) :
  db (cache_analysis_results e w) = db w.
Proof.
  unfold cache_analysis_results.
  assert (Hf : forall entries w0,
             db (fold_left (fun w entry => cache_output_file e entry w)
                   entries w0) = db w0).
  { induction entries as [|en entries IH]; intros w0; simpl; [done|].
    by rewrite IH, cache_output_file_db. }
  destruct (redis_up e); cbn [db set_redis logger]; apply Hf.
Qed.

Lemma generate_processing_report_db (e : env) (m : ProcessingMetrics)
    (w : world) :
  db (fst (generate_processing_report e m w)) = db w.
Proof. unfold generate_processing_report. repeat case_match; simplify_eq; done. Qed.

(** One run changes the store in its filter stage only. *)
Lemma process_data_pipeline_db (e : env) (w : world) :
  db (process_data_pipeline fromisoformat round6 fmt e w)
  = db (fst (filter_and_clean_data fromisoformat round6 e
               (logger INFO "Step 1: Filtering and cleaning data"
                  (logger INFO "Starting data processing pipeline" w)))).
Proof.
  unfold process_data_pipeline.
  destruct (filter_and_clean_data fromisoformat round6 e _)
    as [w1 [total filtered]]. simpl fst.
  destruct (filtered =? 0); [done|].
  set (w1' := logger INFO "Step 2: Exporting data for Apache Pig" w1).
  pose proof (export_for_pig_processing_db e w1') as H2.
  destruct (export_for_pig_processing fmt e w1') as [w2 csv_path].
  simpl in H2.
  destruct (Str.is_empty csv_path); [done|].
  set (w2' := logger INFO "Step 3: Running Apache Pig analysis" w2).
  pose proof (run_pig_analysis_db e csv_path w2') as H3.
  destruct (run_pig_analysis e csv_path w2') as [w3 ok]. simpl in H3.
  destruct ok; simpl negb; cbv iota; [|by rewrite <- H2, <- H3].
  set (w3' := logger INFO "Step 4: Caching analysis results" w3).
  set (m := mkMetrics _ _ _ _ _).
  pose proof (generate_processing_report_db e m
                (cache_analysis_results e w3')) as H5.
  destruct (generate_processing_report e m (cache_analysis_results e w3'))
    as [w5 rep]. simpl in H5. rewrite cache_analysis_results_db in H5.
  destruct (redis_up e); simpl; rewrite H5; simpl; by rewrite H3, H2.
Qed.

Lemma runs_db (es : list env) (w : world) :
  Forall2 flagged_from (db w) (db (runs fromisoformat round6 fmt es w)).
Proof.
  unfold runs. revert w. induction es as [|e es IH]; intros w; simpl.
  { apply Forall2_flagged_from_refl. }
  eapply Forall2_flagged_from_trans; [|apply IH].
  rewrite process_data_pipeline_db.
  eapply Forall2_flagged_from_trans; [|apply filter_and_clean_data_db].
  apply Forall2_flagged_from_refl.
Qed.

Lemma export_cells_flagged (r r' : Row.t) :
  flagged_from r r' -> export_cells fmt r' = export_cells fmt r.
Proof. by intros [->| ->]. Qed.

(** X6: whatever the runs of the pipeline meet, the store keeps its rows,
    in place and in number: a row is left as it is or gets its [processed]
    flag set, nothing else of it is ever written. A row that is flagged
    stays flagged, and the cells exported for a row are those of the raw
    row: what the Normalizer computes never reaches the store nor the
    exported artifact. *)
Theorem runs_only_flag (es : list env) (w : world) :
  let w' := runs fromisoformat round6 fmt es w in
  Forall2 flagged_from (db w) (db w')
  /\ (forall i r, db w !! i = Some r -> Row.processed r = true ->
      db w' !! i = Some r)
  /\ map (export_cells fmt) (db w') = map (export_cells fmt) (db w).
Proof.
  simpl. pose proof (runs_db es w) as H.
  split; [done|]. split.
  - intros i r Hi Hp.
    destruct (Forall2_lookup_l _ _ _ _ _ H Hi) as (r' & Hr' & Hf).
    rewrite Hr'. f_equal. destruct Hf as [->| ->]; [done|].
    destruct r; simpl in *. by subst.
  - induction H as [|r r' t t' Hr _ IH]; simpl; [done|].
    by rewrite (export_cells_flagged _ _ Hr), IH.
Qed.


(** ** The filter stage, case by case *)

Lemma filter_valid_valid now_ (l f : list incident) :
  filter_valid fromisoformat now_ l = Ok f ->
  forall x, x ∈ f -> is_valid_incident fromisoformat now_ x = Ok true.
Proof.
  revert f. induction l as [|inc l IH]; simpl; intros f H x Hx.
  { injection H as <-. by apply elem_of_nil in Hx. }
  apply bind_Ok_inv in H as (v & Hv & H).
  apply bind_Ok_inv in H as (f' & Hf' & H). injection H as <-.
  destruct v; [|by eapply IH].
  apply elem_of_cons in Hx as [->|Hx]; [done | by eapply IH].
Qed.

Lemma filter_valid_length now_ (l f : list incident) :
  filter_valid fromisoformat now_ l = Ok f -> (length f <= length l)%nat.
Proof.
  revert f. induction l as [|inc l IH]; simpl; intros f H.
  { by injection H as <-. }
  apply bind_Ok_inv in H as (v & Hv & H).
  apply bind_Ok_inv in H as (f' & Hf' & H). injection H as <-.
  specialize (IH _ Hf'). destruct v; simpl; lia.
Qed.

(** One record on which the validator raises makes the loop raise. *)
Lemma filter_valid_raise now_ (l : list incident) x ex :
  x ∈ l -> is_valid_incident fromisoformat now_ x = Raise ex ->
  exists ex', filter_valid fromisoformat now_ l = Raise ex'.
Proof.
  intros Hx Hr. induction l as [|inc l IH]; [by apply elem_of_nil in Hx|].
  simpl. apply elem_of_cons in Hx as [<-|Hx].
  { rewrite Hr. simpl. eauto. }
  destruct (is_valid_incident fromisoformat now_ inc); simpl; [|eauto].
  destruct (IH Hx) as [ex' ->]. simpl. eauto.
Qed.

Lemma filter_valid_ok now_ (l : list incident) :
  Forall (fun x => exists b, is_valid_incident fromisoformat now_ x = Ok b) l ->
  exists f, filter_valid fromisoformat now_ l = Ok f.
Proof.
  induction 1 as [|x l [b Hb] _ [f IH]]; simpl; [eauto|].
  rewrite Hb, IH. simpl. eauto.
Qed.

Lemma dedup_loop_length (rest : list incident) :
  forall acc out, dedup_loop fromisoformat rest acc = Ok out ->
  (length out <= length acc + length rest)%nat.
Proof.
  induction rest as [|inc rest IH]; simpl; intros acc out H.
  { injection H as <-. lia. }
  apply bind_Ok_inv in H as (b & _ & H).
  specialize (IH _ _ H). destruct b; [lia|].
  rewrite length_app in IH. simpl in IH. lia.
Qed.

Lemma remove_duplicates_length (l d : list incident) :
  remove_duplicates fromisoformat l = Ok d -> (length d <= length l)%nat.
Proof.
  unfold remove_duplicates. destruct l as [|y l].
  { intros H. by injection H as <-. }
  intros H. apply bind_Ok_inv in H as (s & Hs & H).
  apply dedup_loop_length in H.
  rewrite (Permutation_length (sorted_by_timestamp_Permutation _ _ Hs)) in H.
  simpl in *. lia.
Qed.

(** On validated records the loop of [remove_duplicates] never raises. *)
Lemma dedup_loop_ok now_ (rest : list incident) :
  forall acc,
  Forall (fun x => is_valid_incident fromisoformat now_ x = Ok true) rest ->
  Forall (fun x => is_valid_incident fromisoformat now_ x = Ok true) acc ->
  exists out, dedup_loop fromisoformat rest acc = Ok out.
Proof.
  induction rest as [|inc rest IH]; intros acc Hr Ha; simpl; [eauto|].
  apply Forall_cons in Hr as [Hi Hr].
  rewrite (is_duplicate_of_any_valid fromisoformat now_ inc acc Hi Ha).
  simpl. apply IH; [done|].
  destruct (existsb _ _); [done|].
  apply Forall_app. split; [done|]. by constructor.
Qed.

Lemma remove_duplicates_ok now_ (l : list incident) :
  Forall (fun x => is_valid_incident fromisoformat now_ x = Ok true) l ->
  Forall aware l ->
  exists d, remove_duplicates fromisoformat l = Ok d.
Proof.
  intros Hv Ha. rewrite (remove_duplicates_aware fromisoformat l Ha).
  apply (dedup_loop_ok now_); [|constructor].
  by rewrite stable_sort_Permutation.
Qed.

Lemma homogenize_incidents_split (l : list incident) :
  (length (fst (homogenize_incidents round6 l))
   + length (snd (homogenize_incidents round6 l)) = length l)%nat.
Proof.
  induction l as [|inc l IH]; simpl; [done|].
  destruct (homogenize_incidents round6 l) as [hs lg].
  destruct (homogenize_incident round6 inc); simpl in *; lia.
Qed.

(** The batch the stage fetches. *)
Definition fetched (e : env) (w : world) : list incident :=
  map (dict_of_row (db_utcoffset e)) (select_unprocessed (db w)).

(** The stage ends in one of two ways. Either it reports [(0, 0)] and leaves
    the store as it was (no connection, nothing to fetch, or an exception in
    the validator or in the deduplicator), or the three steps went through
    and the rows that bear the identifier of a normalized record are
    flagged. *)
Lemma filter_and_clean_data_cases (e : env) (w : world) :
  (db (fst (filter_and_clean_data fromisoformat round6 e w)) = db w
   /\ snd (filter_and_clean_data fromisoformat round6 e w) = (0, 0))
  \/ exists valid dedup,
       db_up e = true
       /\ filter_valid fromisoformat (now e) (fetched e w) = Ok valid
       /\ remove_duplicates fromisoformat valid = Ok dedup
       /\ let hs := fst (homogenize_incidents round6 dedup) in
          db (fst (filter_and_clean_data fromisoformat round6 e w))
          = update_processed (map (fun inc => get (incident_id inc)) hs)
              (db w)
          /\ snd (filter_and_clean_data fromisoformat round6 e w)
             = (len (fetched e w), len hs).
Proof.
  unfold filter_and_clean_data, fetched.
  destruct (db_up e); simpl; [|by left].
  destruct (map (dict_of_row (db_utcoffset e)) (select_unprocessed (db w)))
    as [|i0 raw0] eqn:Eraw; [by left|].
  rewrite <- Eraw.
  destruct (filter_valid fromisoformat (now e) _) as [valid|] eqn:Ev;
    [|by left].
  destruct (remove_duplicates fromisoformat valid) as [dedup|] eqn:Ed;
    [|by left].
  right. exists valid, dedup. repeat (split; [done|]).
  destruct (homogenize_incidents round6 dedup) as [hs logged]. simpl.
  destruct hs as [|h hs]; simpl; [|done].
  split; [|done].
  unfold update_processed. simpl. by rewrite map_id.
Qed.

(** Where a normalized record comes from. *)
Lemma homogenized_origin (e : env) (w : world) valid dedup h :
  filter_valid fromisoformat (now e) (fetched e w) = Ok valid ->
  remove_duplicates fromisoformat valid = Ok dedup ->
  In h (fst (homogenize_incidents round6 dedup)) ->
  exists r0,
    r0 ∈ db w /\ Row.processed r0 = false
    /\ is_valid_incident fromisoformat (now e)
         (dict_of_row (db_utcoffset e) r0) = Ok true
    /\ homogenize_incident round6 (dict_of_row (db_utcoffset e) r0) = Ok h
    /\ get (incident_id h) = Some (Row.incident_id r0)
    /\ dict_of_row (db_utcoffset e) r0 ∈ dedup.
Proof.
  intros Ev Ed Hh.
  apply homogenize_incidents_elem in Hh as (inc & Hinc & Hhom).
  apply list_elem_of_In in Hinc. pose proof Hinc as Hcanonical.
  apply (remove_duplicates_elem _ _ _ Ed) in Hinc.
  pose proof (filter_valid_valid _ _ _ Ev _ Hinc) as Hvalid.
  apply (filter_valid_elem _ _ _ _ Ev) in Hinc.
  apply list_elem_of_In, in_map_iff in Hinc as (r0 & <- & Hr).
  apply list_elem_of_In in Hr.
  unfold select_unprocessed, order_by_timestamp_desc in Hr.
  rewrite stable_sort_Permutation, list_elem_of_filter in Hr.
  destruct Hr as [Hp Hr].
  exists r0. repeat (split; [done|]). split; [|done].
  destruct (homogenize_incident_inv _ _ _ Hhom)
    as (ty & rd & rs & _ & _ & _ & _ & _ & Hid).
  by rewrite Hid.
Qed.

Lemma any_eq_true x ids :
  any_eq x ids = true -> Some x ∈ ids.
Proof.
  unfold any_eq. intros H. apply existsb_exists in H as ([y|] & Hy & E);
    [|discriminate].
  apply String.eqb_eq in E as ->. by apply list_elem_of_In.
Qed.

Lemma any_eq_elem x ids : Some x ∈ ids -> any_eq x ids = true.
Proof.
  intros H. apply existsb_exists. exists (Some x).
  split; [by apply list_elem_of_In | apply String.eqb_refl].
Qed.

(** X7: the filter stage flags a row only for a record that went through the
    whole stage: a row whose flag the stage sets bears the identifier of a
    row that was unprocessed, passed validation at the time of the run, was
    kept as canonical by the deduplicator and was normalized. A record that
    the deduplicator drops is not flagged for itself. *)
Theorem filter_and_clean_data_flags (e : env) (w : world) (i : nat)
    (r r' : Row.t) :
  db w !! i = Some r ->
  db (fst (filter_and_clean_data fromisoformat round6 e w)) !! i = Some r' ->
  Row.processed r = false ->
  Row.processed r' = true ->
  r' = Row.set_processed r
  /\ exists r0 valid canonical h,
       r0 ∈ db w /\ Row.processed r0 = false
       /\ Row.incident_id r0 = Row.incident_id r
       /\ is_valid_incident fromisoformat (now e)
            (dict_of_row (db_utcoffset e) r0) = Ok true
       /\ filter_valid fromisoformat (now e) (fetched e w) = Ok valid
       /\ remove_duplicates fromisoformat valid = Ok canonical
       /\ dict_of_row (db_utcoffset e) r0 ∈ canonical
       /\ homogenize_incident round6 (dict_of_row (db_utcoffset e) r0)
          = Ok h.
Proof.
  intros Hi Hi' Hp Hp'.
  destruct (filter_and_clean_data_cases e w)
    as [[Hdb _] | (valid & dedup & _ & Ev & Ed & Hdb & _)].
  { rewrite Hdb in Hi'. congruence. }
  rewrite Hdb in Hi'. unfold update_processed in Hi'.
  rewrite list_lookup_fmap, Hi in Hi'. simpl in Hi'.
  injection Hi' as <-.
  destruct (any_eq _ _) eqn:E; [|congruence].
  split; [done|].
  apply any_eq_true, list_elem_of_In, in_map_iff in E as (h & Hid & Hh).
  destruct (homogenized_origin e w valid dedup h Ev Ed Hh)
    as (r0 & Hr0 & Hp0 & Hv & Hhom & Hid0 & Hcan).
  exists r0, valid, dedup, h. repeat (split; [done|]).
  split; [congruence | done].
Qed.

(** ** Counts *)

Lemma len_select_unprocessed (table : list Row.t) :
  length (select_unprocessed table) = length (unprocessed table).
Proof.
  unfold select_unprocessed, order_by_timestamp_desc.
  apply Permutation_length, stable_sort_Permutation.
Qed.

Lemma length_unprocessed_le (table : list Row.t) :
  (length (unprocessed table) <= length table)%nat.
Proof. apply length_filter. Qed.

Lemma filtered_le_total (e : env) (w : world) :
  0 <= snd (snd (filter_and_clean_data fromisoformat round6 e w))
    <= fst (snd (filter_and_clean_data fromisoformat round6 e w))
  /\ fst (snd (filter_and_clean_data fromisoformat round6 e w))
     <= len (unprocessed (db w)).
Proof.
  destruct (filter_and_clean_data_cases e w)
    as [[_ ->] | (valid & dedup & _ & Ev & Ed & _ & ->)]; unfold len; simpl.
  { lia. }
  unfold fetched in *. rewrite length_map, len_select_unprocessed.
  apply filter_valid_length in Ev. apply remove_duplicates_length in Ed.
  pose proof (homogenize_incidents_length round6 dedup) as Hh.
  rewrite length_map, len_select_unprocessed in Ev. lia.
Qed.

(** X8: the two numbers the filter stage returns are ordered: the number of
    records it kept is at most the number it fetched, which is at most the
    number of unprocessed rows, itself at most the number of rows. *)
Theorem filter_and_clean_data_counts (e : env) (w : world) :
  let '(total, filtered) :=
    snd (filter_and_clean_data fromisoformat round6 e w) in
  0 <= filtered <= total
  /\ total <= len (unprocessed (db w)) <= len (db w).
Proof.
  pose proof (length_unprocessed_le (db w)) as Hu.
  pose proof (filtered_le_total e w) as H.
  destruct (snd (filter_and_clean_data fromisoformat round6 e w))
    as [total filtered]. simpl in H. unfold len in *. lia.
Qed.

(** ** A NULL description *)

(** A row with a usable identifier, type and position whose description is
    NULL: the validator raises on it. *)
Definition null_description (r : Row.t) : Prop :=
  Row.description r = None
  /\ Row.incident_id r <> "" /\ Row.incident_type r <> ""
  /\ in_bounds (Row.latitude r) (Row.longitude r) = true.

Lemma is_valid_incident_null_description now_ off (r : Row.t) :
  null_description r ->
  is_valid_incident fromisoformat now_ (dict_of_row off r)
  = Raise AttributeError.
Proof.
  intros (Hd & Hid & Hty & Hb).
  unfold is_valid_incident, truthy_str, truthy_float, truthy_ts. simpl.
  destruct (Row.incident_id r) as [|c1 s1] eqn:E1; [done|].
  destruct (Row.incident_type r) as [|c2 s2] eqn:E2; [done|].
  simpl.
  destruct (Row.latitude r =? 0)%float eqn:Ela.
  { by rewrite (zero_not_in_bounds_lat _ _ Ela) in Hb. }
  destruct (Row.longitude r =? 0)%float eqn:Elo.
  { by rewrite (zero_not_in_bounds_lon _ _ Elo) in Hb. }
  simpl. rewrite Hb, Hd. reflexivity.
Qed.

Lemma elem_of_select_unprocessed (table : list Row.t) r :
  r ∈ table -> Row.processed r = false -> r ∈ select_unprocessed table.
Proof.
  intros Hr Hp. unfold select_unprocessed, order_by_timestamp_desc.
  rewrite stable_sort_Permutation. by apply list_elem_of_filter.
Qed.

(** With such a row unprocessed in the store the stage keeps nothing. *)
Lemma filter_and_clean_data_blocked (e : env) (w : world) (r : Row.t) :
  r ∈ db w -> Row.processed r = false -> null_description r ->
  db (fst (filter_and_clean_data fromisoformat round6 e w)) = db w
  /\ snd (filter_and_clean_data fromisoformat round6 e w) = (0, 0).
Proof.
  intros Hr Hp Hn.
  destruct (filter_and_clean_data_cases e w)
    as [H | (valid & dedup & _ & Ev & _)]; [done|].
  exfalso.
  assert (Hin : dict_of_row (db_utcoffset e) r ∈ fetched e w).
  { apply list_elem_of_In, in_map. apply list_elem_of_In.
    by apply elem_of_select_unprocessed. }
  destruct (filter_valid_raise (now e) _ _ _ Hin
              (is_valid_incident_null_description (now e) _ r Hn))
    as [ex Hex].
  congruence.
Qed.

Lemma process_data_pipeline_no_data (e : env) (w : world) :
  let started :=
    logger INFO "Step 1: Filtering and cleaning data"
      (logger INFO "Starting data processing pipeline" w) in
  snd (snd (filter_and_clean_data fromisoformat round6 e started)) = 0 ->
  process_data_pipeline fromisoformat round6 fmt e w
  = logger INFO "No data to process"
      (fst (filter_and_clean_data fromisoformat round6 e started)).
Proof.
  intros started H. unfold process_data_pipeline. fold started.
  destruct (filter_and_clean_data fromisoformat round6 e started)
    as [w1 [total n]]. simpl in *. by rewrite H.
Qed.

(** X9: one unprocessed row with a NULL description, a non-empty identifier
    and type and a position inside the bounding box stops the processor for
    as long as the row stays as it is: the validator raises on it, the
    filter stage catches the exception and flags nothing, so the row is
    fetched again by the next run. Over any number of runs, whatever they
    read from outside, each run ends at [No data to process], and the
    store, the files and the cache stay as they were. *)
Theorem null_description_blocks_runs (es : list env) (w : world)
    (r : Row.t) :
  r ∈ db w -> Row.processed r = false -> null_description r ->
  let w' := runs fromisoformat round6 fmt es w in
  db w' = db w /\ files w' = files w /\ redis w' = redis w
  /\ (es <> [] -> last (log w') = Some (INFO, "No data to process")).
Proof.
  intros Hr Hp Hn. simpl. unfold runs.
  revert w Hr. induction es as [|e es IH]; intros w Hr; simpl.
  { done. }
  set (started :=
         logger INFO "Step 1: Filtering and cleaning data"
           (logger INFO "Starting data processing pipeline" w)).
  destruct (filter_and_clean_data_blocked e started r Hr Hp Hn)
    as [Hdb Hcount].
  assert (Hrun : process_data_pipeline fromisoformat round6 fmt e w
                 = logger INFO "No data to process"
                     (fst (filter_and_clean_data fromisoformat round6 e
                             started))).
  { apply process_data_pipeline_no_data. fold started. by rewrite Hcount. }
  destruct (filter_and_clean_data_frame fromisoformat round6 e started)
    as [Hredis Hfiles].
  set (w1 := process_data_pipeline fromisoformat round6 fmt e w) in *.
  assert (Hdb1 : db w1 = db w) by (by rewrite Hrun).
  assert (Hr1 : r ∈ db w1) by (by rewrite Hdb1).
  destruct (IH w1 Hr1) as (H1 & H2 & H3 & H4).
  rewrite H1, H2, H3.
  split; [done|]. split; [by rewrite Hrun|]. split; [by rewrite Hrun|].
  intros _. destruct es as [|e' es]; [|by apply H4].
  simpl. rewrite Hrun. apply last_logger.
Qed.

(** ** A store without NULL descriptions *)

Lemma is_valid_incident_row now_ off (r : Row.t) :
  Row.description r <> None ->
  exists b, is_valid_incident fromisoformat now_ (dict_of_row off r) = Ok b.
Proof.
  intros Hd. unfold is_valid_incident. simpl.
  destruct (Row.description r) as [d|]; [|done]. simpl.
  repeat case_match; eauto.
Qed.

Lemma fetched_ok (e : env) (w : world) :
  (forall r, r ∈ db w -> Row.processed r = false ->
             Row.description r <> None) ->
  exists valid dedup,
    filter_valid fromisoformat (now e) (fetched e w) = Ok valid
    /\ remove_duplicates fromisoformat valid = Ok dedup.
Proof.
  intros Hd.
  destruct (filter_valid_ok (now e) (fetched e w)) as [valid Ev].
  { unfold fetched. apply Forall_forall. intros x Hx.
    apply list_elem_of_In, in_map_iff in Hx as (r & <- & Hr).
    apply list_elem_of_In in Hr.
    unfold select_unprocessed, order_by_timestamp_desc in Hr.
    rewrite stable_sort_Permutation, list_elem_of_filter in Hr.
    destruct Hr as [Hp Hr]. apply is_valid_incident_row. by apply Hd. }
  destruct (remove_duplicates_ok (now e) valid) as [dedup Ed].
  { apply Forall_forall. intros x Hx. by eapply filter_valid_valid. }
  { apply Forall_forall. intros x Hx.
    apply (filter_valid_elem _ _ _ _ Ev) in Hx.
    apply list_elem_of_In, in_map_iff in Hx as (r & <- & _).
    apply aware_dict_of_row. }
  eauto.
Qed.

(** What the stage does when neither the validator nor the deduplicator
    raises. *)
Lemma filter_and_clean_data_through (e : env) (w : world) valid dedup :
  db_up e = true ->
  filter_valid fromisoformat (now e) (fetched e w) = Ok valid ->
  remove_duplicates fromisoformat valid = Ok dedup ->
  let hs := fst (homogenize_incidents round6 dedup) in
  db (fst (filter_and_clean_data fromisoformat round6 e w))
  = update_processed (map (fun inc => get (incident_id inc)) hs) (db w)
  /\ snd (filter_and_clean_data fromisoformat round6 e w)
     = (len (unprocessed (db w)), len hs).
Proof.
  intros Hup Ev Ed. simpl.
  assert (Hlen : len (fetched e w) = len (unprocessed (db w))).
  { unfold len, fetched. by rewrite length_map, len_select_unprocessed. }
  unfold filter_and_clean_data. rewrite Hup. simpl.
  fold (fetched e w). rewrite Ev, Ed, <- Hlen.
  destruct (fetched e w) as [|i0 raw0] eqn:Eraw.
  { simpl. injection Ev as <-. injection Ed as <-. simpl.
    split; [|done]. unfold update_processed. simpl. by rewrite map_id. }
  destruct (homogenize_incidents round6 dedup) as [hs logged]. simpl.
  split; [|done].
  destruct hs as [|h hs]; simpl; [|done].
  unfold update_processed. simpl. by rewrite map_id.
Qed.

(** X10: with the store reachable and no NULL description among the
    unprocessed rows, neither the validator nor the deduplicator raises:
    the stage goes through. The first number it returns is the number of
    unprocessed rows, the second the number of records the Normalizer
    returned for the canonical list, and the rows flagged are those that
    bear the identifier of one of these records. *)
Theorem filter_and_clean_data_goes_through (e : env) (w : world) :
  db_up e = true ->
  (forall r, r ∈ db w -> Row.processed r = false ->
             Row.description r <> None) ->
  exists valid canonical,
    filter_valid fromisoformat (now e) (fetched e w) = Ok valid
    /\ remove_duplicates fromisoformat valid = Ok canonical
    /\ let hs := fst (homogenize_incidents round6 canonical) in
       db (fst (filter_and_clean_data fromisoformat round6 e w))
       = update_processed (map (fun inc => get (incident_id inc)) hs) (db w)
       /\ snd (filter_and_clean_data fromisoformat round6 e w)
          = (len (unprocessed (db w)), len hs).
Proof.
  intros Hup Hd. destruct (fetched_ok e w Hd) as (valid & dedup & Ev & Ed).
  exists valid, dedup. split; [done|]. split; [done|].
  exact (filter_and_clean_data_through e w valid dedup Hup Ev Ed).
Qed.

(** ** The backlog *)

Lemma unprocessed_flagged_le (t t' : list Row.t) :
  Forall2 flagged_from t t' ->
  (length (unprocessed t') <= length (unprocessed t))%nat.
Proof.
  unfold unprocessed.
  induction 1 as [|r r' t t' Hr _ IH]; [done|].
  rewrite !filter_cons.
  destruct Hr as [->| ->]; simpl;
    repeat case_decide; simpl in *; try congruence; lia.
Qed.

Lemma unprocessed_update_lt ids (table : list Row.t) r :
  r ∈ table -> Row.processed r = false ->
  any_eq (Row.incident_id r) ids = true ->
  (length (unprocessed (update_processed ids table))
   < length (unprocessed table))%nat.
Proof.
  intros Hr Hp Hid. induction table as [|x table IH];
    [by apply elem_of_nil in Hr|].
  pose proof (unprocessed_flagged_le _ _ (update_processed_flagged ids table))
    as Hle.
  unfold unprocessed, update_processed in *. simpl map.
  rewrite !filter_cons.
  apply elem_of_cons in Hr as [<-|Hr].
  - rewrite Hid. repeat case_decide; simpl in *; try congruence; lia.
  - specialize (IH Hr).
    destruct (any_eq (Row.incident_id x) ids); simpl;
      repeat case_decide; simpl in *; try congruence; lia.
Qed.

(** X11: the number of unprocessed rows never grows over the runs of the
    pipeline, and a filter stage that reports at least one record kept
    leaves strictly fewer unprocessed rows than it found. *)
Theorem backlog_decreases (es : list env) (e : env) (w : world) :
  len (select_unprocessed (db (runs fromisoformat round6 fmt es w)))
  <= len (select_unprocessed (db w))
  /\ (snd (snd (filter_and_clean_data fromisoformat round6 e w)) <> 0 ->
      len (select_unprocessed
             (db (fst (filter_and_clean_data fromisoformat round6 e w))))
      < len (select_unprocessed (db w))).
Proof.
  unfold len. rewrite !len_select_unprocessed. split.
  { pose proof (unprocessed_flagged_le _ _ (runs_db es w)). lia. }
  intros Hn.
  destruct (filter_and_clean_data_cases e w)
    as [[_ H0] | (valid & dedup & _ & Ev & Ed & Hdb & Hc)].
  { rewrite H0 in Hn. done. }
  simpl in Hdb, Hc. rewrite Hdb, Hc in *. simpl in Hn.
  destruct (fst (homogenize_incidents round6 dedup)) as [|h hs] eqn:Eh;
    [done|].
  destruct (homogenized_origin e w valid dedup h Ev Ed)
    as (r0 & Hr0 & Hp0 & _ & _ & Hid0 & _).
  { rewrite Eh. by left. }
  pose proof (unprocessed_update_lt
                (map (fun inc => get (incident_id inc)) (h :: hs))
                (db w) r0 Hr0 Hp0) as Hlt.
  assert (any_eq (Row.incident_id r0)
            (map (fun inc => get (incident_id inc)) (h :: hs)) = true).
  { apply any_eq_elem. simpl. rewrite Hid0. by left. }
  specialize (Hlt H). lia.
Qed.


(** ** Export *)

Lemma insert_sorted_desc (x : Row.t) (l : list Row.t) :
  StronglySorted (fun a b => Row.timestamp b <= Row.timestamp a) l ->
  StronglySorted (fun a b => Row.timestamp b <= Row.timestamp a)
    (insert_sorted (fun a b => Row.timestamp b <? Row.timestamp a) x l).
Proof.
  induction l as [|y l IH]; intros Hs; simpl.
  { repeat constructor. }
  apply StronglySorted_inv in Hs as [Hs Hy].
  destruct (Z.ltb_spec (Row.timestamp x) (Row.timestamp y)) as [Hlt|Hge].
  - constructor; [by apply IH|].
    rewrite insert_sorted_Permutation. constructor; [lia | done].
  - constructor; [by constructor|].
    constructor; [done|].
    eapply Forall_impl; [exact Hy|]. simpl. intros z Hz. lia.
Qed.

Lemma order_by_timestamp_desc_sorted (rows : list Row.t) :
  StronglySorted (fun a b => Row.timestamp b <= Row.timestamp a)
    (order_by_timestamp_desc rows).
Proof.
  unfold order_by_timestamp_desc.
  induction rows as [|r rows IH]; simpl; [constructor|].
  by apply insert_sorted_desc.
Qed.

Lemma StronglySorted_take {A : Type} (R : A -> A -> Prop) (n : nat)
    (l : list A) :
  StronglySorted R l -> StronglySorted R (take n l).
Proof.
  intros H. rewrite <- (take_drop n l) in H.
  by apply StronglySorted_app_1_l in H.
Qed.

Lemma select_processed_elem (table : list Row.t) r :
  r ∈ select_processed table -> r ∈ table /\ Row.processed r = true.
Proof.
  unfold select_processed, order_by_timestamp_desc. intros H.
  apply elem_of_take in H as (i & H & _).
  apply list_elem_of_lookup_2 in H.
  rewrite stable_sort_Permutation, list_elem_of_filter in H. tauto.
Qed.

(** X12: when the exporter returns a path, the path is that of a file it
    has just written under [/app/data], so the test of [run_pig_analysis]
    for a missing CSV file passes on it. The file is the CSV text of at most
    10000 rows of the store, each of them flagged as processed, the newest
    first; the store and the cache are left as they were. *)
Theorem export_for_pig_processing_file (e : env) (w w' : world)
    (path : string) :
  export_for_pig_processing fmt e w = (w', path) ->
  path <> "" ->
  let rows := select_processed (db w) in
  path = "/app/data/processed_incidents_" ++ pretty (unix_time e) ++ ".csv"
  /\ files w' = <[path := to_csv fmt rows]> (files w)
  /\ (Str.is_empty path || negb (path_exists path (files w'))) = false
  /\ rows <> [] /\ len rows <= 10000
  /\ (forall r, r ∈ rows -> r ∈ db w /\ Row.processed r = true)
  /\ StronglySorted (fun a b => Row.timestamp b <= Row.timestamp a) rows
  /\ db w' = db w /\ redis w' = redis w.
Proof.
  unfold export_for_pig_processing. intros H Hne. simpl.
  destruct (negb (db_up e)); [injection H as <- <-; done|].
  destruct (select_processed (db w)) as [|r0 rows0] eqn:Esel;
    [injection H as <- <-; done|].
  rewrite <- Esel in *. injection H as <- <-. simpl.
  split; [done|]. split; [done|]. split.
  { unfold path_exists. by rewrite lookup_insert_eq. }
  split; [by rewrite Esel|]. split.
  { unfold len, select_processed. rewrite length_take. lia. }
  split; [apply select_processed_elem|]. split; [|done].
  unfold select_processed. apply StronglySorted_take.
  apply order_by_timestamp_desc_sorted.
Qed.




(** ** When a run completes *)





(** ** What the cache stage writes *)

Definition analysis_keys : list string :=
  [ "analysis:comuna_counts"; "analysis:type_counts";
    "analysis:hourly_counts"; "analysis:hotspots"; "analysis:last_update" ].

Lemma cache_output_file_frame (e : env) (entry : string * string)
    (w : world) (key : string) :
  key <> "analysis:" ++ fst entry \/ files w !! snd entry = None
  \/ redis_up e = false ->
  redis (cache_output_file e entry w) !! key = redis w !! key.
Proof.
  unfold cache_output_file. destruct entry as [k p]. simpl.
  intros H. destruct (files w !! p) as [content|] eqn:Ef; [|done].
  destruct (redis_up e) eqn:Hup; [|done]. simpl. unfold SETEX.
  destruct H as [H|[H|H]]; try discriminate.
  by rewrite lookup_insert_ne.
Qed.

Lemma cache_loop_frame (e : env) (entries : list (string * string))
    (w : world) (key : string) :
  Forall (fun entry =>
            key <> "analysis:" ++ fst entry \/ files w !! snd entry = None
            \/ redis_up e = false) entries ->
  redis (fold_left (fun w entry => cache_output_file e entry w) entries w)
    !! key
  = redis w !! key.
Proof.
  revert w. induction entries as [|en entries IH]; intros w H; simpl;
    [done|].
  apply Forall_cons in H as [Hen H].
  rewrite IH.
  - by apply cache_output_file_frame.
  - eapply Forall_impl; [exact H|]. simpl.
    intros x Hx. by rewrite cache_output_file_files.
Qed.

(** X16: [cache_analysis_results] writes to the cache only, and there only
    under the four result keys and [analysis:last_update]: every other key,
    [processing:last_report] among them, keeps its entry, and so does the
    key of a result file that does not exist (an older result stays in the
    cache until it expires). With the cache out of reach nothing is
    written. *)
Theorem cache_analysis_results_frame (e : env) (w : world) :
  let w' := cache_analysis_results e w in
  db w' = db w /\ files w' = files w
  /\ (forall key, key ∉ analysis_keys -> redis w' !! key = redis w !! key)
  /\ (forall key path, (key, path) ∈ output_files ->
        files w !! path = None ->
        redis w' !! ("analysis:" ++ key) = redis w !! ("analysis:" ++ key))
  /\ (redis_up e = false -> forall key, redis w' !! key = redis w !! key).
Proof.
  simpl. split; [apply cache_analysis_results_db|].
  assert (Hfiles : forall entries w0,
             files (fold_left (fun w entry => cache_output_file e entry w)
                      entries w0) = files w0).
  { induction entries as [|en entries IH]; intros w0; simpl; [done|].
    by rewrite IH, cache_output_file_files. }
  split.
  { unfold cache_analysis_results.
    destruct (redis_up e); cbn [files set_redis logger]; apply Hfiles. }
  unfold cache_analysis_results. split; [|split].
  - intros key Hkey. unfold analysis_keys in Hkey.
    rewrite !not_elem_of_cons in Hkey.
    destruct Hkey as (H1 & H2 & H3 & H4 & H5 & _).
    assert (Hl : redis (fold_left
                          (fun w entry => cache_output_file e entry w)
                          output_files w) !! key
                 = redis w !! key).
    { apply cache_loop_frame. unfold output_files.
      repeat (apply Forall_cons; split; [left; assumption|]).
      constructor. }
    destruct (redis_up e); cbn [redis set_redis logger]; [|done].
    unfold SETEX. by rewrite lookup_insert_ne.
  - intros key path Hin Hf.
    assert (Hl : redis (fold_left
                          (fun w entry => cache_output_file e entry w)
                          output_files w) !! ("analysis:" ++ key)
                 = redis w !! ("analysis:" ++ key)).
    { apply cache_loop_frame. unfold output_files in *.
      repeat (apply elem_of_cons in Hin as [Hin|Hin];
              [injection Hin as -> ->;
               repeat (apply Forall_cons; split;
                       [first [by left | by right; left]|]);
               constructor|]).
      by apply elem_of_nil in Hin. }
    destruct (redis_up e); cbn [redis set_redis logger]; [|done].
    unfold SETEX. rewrite lookup_insert_ne; [done|].
    unfold output_files in Hin.
    repeat (apply elem_of_cons in Hin as [Hin|Hin];
            [injection Hin as -> ->; discriminate|]).
    by apply elem_of_nil in Hin.
  - intros Hup key. rewrite Hup. cbn [redis logger].
    apply cache_loop_frame. apply Forall_forall. intros x _. by right; right.
Qed.

(** ** The Normalizer and its log *)

Lemma homogenize_incidents_logged (l : list incident) :
  Forall (fun record =>
            record = (ERROR, "Error homogenizing incident {}: {}"))
    (snd (homogenize_incidents round6 l)).
Proof.
  induction l as [|inc l IH]; simpl; [constructor|].
  destruct (homogenize_incidents round6 l) as [hs lg].
  destruct (homogenize_incident round6 inc); simpl in *; [done|].
  by constructor.
Qed.

(** X17: the Normalizer accounts for every record it is given: a record is
    either returned in its normalized form or reported by one error entry
    of the log, so the records returned and the entries logged add up to
    the records given; nothing is logged exactly when every record is one
    the Normalizer keeps. *)
Theorem homogenize_incidents_accounting (l : list incident) :
  let '(homogenized, logged) := homogenize_incidents round6 l in
  (length homogenized + length logged = length l)%nat
  /\ Forall (fun record =>
               record = (ERROR, "Error homogenizing incident {}: {}"))
       logged
  /\ (logged = [] <-> forallb normalizable l = true).
Proof.
  pose proof (homogenize_incidents_split l) as Hs.
  pose proof (homogenize_incidents_logged l) as Hl.
  assert (Hn : snd (homogenize_incidents round6 l) = []
               <-> forallb normalizable l = true).
  { clear Hs Hl. induction l as [|inc l IH]; simpl; [done|].
    destruct (homogenize_incidents round6 l) as [hs lg]. simpl in IH.
    destruct (homogenize_incident round6 inc) as [h|ex] eqn:Eh; simpl.
    - rewrite (homogenize_incident_normalizable _ _ _ Eh). simpl. exact IH.
    - destruct (normalizable inc) eqn:En.
      + destruct (homogenize_incident_total round6 inc En) as [h Hh].
        congruence.
      + simpl. split; discriminate. }
  destruct (homogenize_incidents round6 l) as [hs lg]. simpl in *. done.
Qed.


(** ** The canonical list *)

(** [a] is not later than [b] (both aware). *)
Definition not_later (a b : incident) : Prop :=
  match instant a, instant b with
  | Some x, Some y => x <= y
  | _, _ => False
  end.

(** [b], which comes later in a list, is not a duplicate of [a]. *)
Definition distinct_event (a b : incident) : Prop :=
  are_incidents_duplicate fromisoformat b a = Ok false.

Lemma StronglySorted_sublist {A : Type} (R : A -> A -> Prop)
    (l k : list A) :
  l `sublist_of` k -> StronglySorted R k -> StronglySorted R l.
Proof.
  induction 1 as [|x l k Hs IH|x l k Hs IH]; intros Hk; [done| |].
  - apply StronglySorted_inv in Hk as [Hk Hx].
    constructor; [by apply IH|].
    apply Forall_forall. intros y Hy.
    eapply Forall_forall in Hx; [exact Hx|]. by eapply elem_of_sublist.
  - apply StronglySorted_inv in Hk as [Hk _]. by apply IH.
Qed.

Lemma earlier_not_later a b :
  aware a -> aware b -> earlier a b = false -> not_later b a.
Proof.
  unfold earlier, not_later. intros [x ->] [y ->]. rewrite Z.ltb_ge. lia.
Qed.

Lemma not_later_earlier a b : not_later a b -> earlier b a = false.
Proof.
  unfold earlier, not_later. destruct (instant a), (instant b); try done.
  rewrite Z.ltb_ge. lia.
Qed.

Lemma not_later_trans a b c : not_later a b -> not_later b c -> not_later a c.
Proof.
  unfold not_later. destruct (instant a), (instant b), (instant c);
    try done. lia.
Qed.

Lemma insert_sorted_not_later (x : incident) (l : list incident) :
  aware x -> Forall aware l ->
  StronglySorted not_later l ->
  StronglySorted not_later (insert_sorted earlier x l).
Proof.
  intros Hx. induction l as [|y l IH]; intros Ha Hs; simpl.
  { repeat constructor. }
  apply Forall_cons in Ha as [Hy Ha].
  apply StronglySorted_inv in Hs as [Hs Hyl].
  destruct (earlier y x) eqn:E.
  - constructor; [by apply IH|].
    rewrite insert_sorted_Permutation. constructor; [|done].
    unfold earlier in E. unfold not_later.
    destruct (instant y), (instant x); try done.
    apply Z.ltb_lt in E. lia.
  - pose proof (earlier_not_later y x Hy Hx E) as Hxy.
    constructor; [by constructor|].
    constructor; [done|].
    eapply Forall_impl; [exact Hyl|]. simpl. intros z Hz.
    by eapply not_later_trans.
Qed.

Lemma stable_sort_not_later (l : list incident) :
  Forall aware l -> StronglySorted not_later (stable_sort earlier l).
Proof.
  induction 1 as [|x l Hx Hl IH]; simpl; [constructor|].
  apply insert_sorted_not_later; [done| |done].
  by rewrite stable_sort_Permutation.
Qed.

(** A batch that is in time order is left as it is by the sort. *)
Lemma stable_sort_sorted (l : list incident) :
  StronglySorted not_later l -> stable_sort earlier l = l.
Proof.
  induction 1 as [|x l Hs IH Hx]; simpl; [done|].
  rewrite IH. destruct l as [|y l]; simpl; [done|].
  apply Forall_cons in Hx as [Hxy _].
  by rewrite (not_later_earlier _ _ Hxy).
Qed.

Lemma is_duplicate_of_any_false now_ inc (acc : list incident) :
  is_valid_incident fromisoformat now_ inc = Ok true ->
  Forall (fun x => is_valid_incident fromisoformat now_ x = Ok true) acc ->
  (is_duplicate_of_any fromisoformat inc acc = Ok false
   <-> Forall (fun a => distinct_event a inc) acc)
  /\ (is_duplicate_of_any fromisoformat inc acc = Ok true
      <-> exists c, c ∈ acc
            /\ are_incidents_duplicate fromisoformat inc c = Ok true).
Proof.
  intros Hi Ha. unfold distinct_event.
  induction Ha as [|c acc Hc Ha [IH1 IH2]]; simpl.
  { split; [split; [constructor | done]|].
    split; [discriminate|]. intros (c & Hc & _). by apply elem_of_nil in Hc. }
  pose proof (are_incidents_duplicate_valid fromisoformat now_ inc c Hi Hc)
    as Hdup.
  rewrite Hdup. simpl.
  destruct (same_event fromisoformat inc c) eqn:E; split.
  - split; [discriminate|]. intros H. apply Forall_cons in H as [H _].
    congruence.
  - split; [|done]. intros _. exists c. split; [by left | done].
  - rewrite IH1. rewrite Forall_cons. tauto.
  - rewrite IH2. split.
    + intros (c' & Hc' & Hd). exists c'. split; [by right | done].
    + intros (c' & Hc' & Hd). apply elem_of_cons in Hc' as [->|Hc'].
      * congruence.
      * eauto.
Qed.

Lemma is_duplicate_of_any_total now_ inc (acc : list incident) :
  is_valid_incident fromisoformat now_ inc = Ok true ->
  Forall (fun x => is_valid_incident fromisoformat now_ x = Ok true) acc ->
  exists b, is_duplicate_of_any fromisoformat inc acc = Ok b.
Proof.
  intros Hi Ha.
  rewrite (is_duplicate_of_any_valid fromisoformat now_ inc acc Hi Ha).
  eauto.
Qed.

(** The loop from an accumulator [acc]: what it returns is a sublist of
    [acc ++ rest] that starts with [acc], holds no two duplicates when [acc]
    holds none, and holds a duplicate of every record of [rest]. *)
Lemma dedup_loop_canonical now_ (rest : list incident) :
  forall acc : list incident,
  Forall (fun x => is_valid_incident fromisoformat now_ x = Ok true) rest ->
  Forall (fun x => is_valid_incident fromisoformat now_ x = Ok true) acc ->
  StronglySorted distinct_event acc ->
  exists out,
    dedup_loop fromisoformat rest acc = Ok out
    /\ out `sublist_of` (acc ++ rest)%list
    /\ (forall z, z ∈ acc -> z ∈ out)
    /\ StronglySorted distinct_event out
    /\ forall x, x ∈ rest ->
         exists c, c ∈ out
           /\ are_incidents_duplicate fromisoformat x c = Ok true.
Proof.
  induction rest as [|inc rest IH]; intros acc Hr Ha Hd; simpl.
  { exists acc. split; [done|]. split; [by rewrite app_nil_r|].
    split; [done|]. split; [done|].
    intros x Hx. by apply elem_of_nil in Hx. }
  apply Forall_cons in Hr as [Hi Hr].
  destruct (is_duplicate_of_any_false now_ inc acc Hi Ha) as [Hf Ht].
  destruct (is_duplicate_of_any_total now_ inc acc Hi Ha) as [b Hb].
  rewrite Hb. simpl. destruct b.
  - destruct (IH acc Hr Ha Hd) as (out & Hout & Hsub & Hacc & Hdis & Hcov).
    exists out. split; [done|]. split.
    { etrans; [exact Hsub|]. apply sublist_app; [done|]. by constructor. }
    split; [done|]. split; [done|].
    intros x Hx. apply elem_of_cons in Hx as [->|Hx]; [|by apply Hcov].
    apply Ht in Hb as (c & Hc & Hdup). exists c. split; [by apply Hacc|done].
  - destruct (IH (acc ++ [inc])%list Hr)
      as (out & Hout & Hsub & Hacc & Hdis & Hcov).
    { apply Forall_app. split; [done|]. by constructor. }
    { apply StronglySorted_app_2; [|done|repeat constructor].
      intros a x Ha' Hx. apply list_elem_of_singleton in Hx as ->.
      apply Hf in Hb. by eapply Forall_forall in Hb. }
    exists out. split; [done|]. split.
    { by rewrite <- app_assoc in Hsub. }
    split.
    { intros z Hz. apply Hacc, elem_of_app. by left. }
    split; [done|].
    intros x Hx. apply elem_of_cons in Hx as [->|Hx]; [|by apply Hcov].
    exists inc. split.
    + apply Hacc, elem_of_app. right. by left.
    + by apply (are_incidents_duplicate_refl fromisoformat now_).
Qed.

(** A list without duplicates goes through the loop unchanged. *)
Lemma dedup_loop_fixed now_ (rest : list incident) :
  forall acc : list incident,
  Forall (fun x => is_valid_incident fromisoformat now_ x = Ok true) rest ->
  Forall (fun x => is_valid_incident fromisoformat now_ x = Ok true) acc ->
  StronglySorted distinct_event (acc ++ rest) ->
  dedup_loop fromisoformat rest acc = Ok (acc ++ rest)%list.
Proof.
  induction rest as [|inc rest IH]; intros acc Hr Ha Hd; simpl.
  { by rewrite app_nil_r. }
  apply Forall_cons in Hr as [Hi Hr].
  destruct (is_duplicate_of_any_false now_ inc acc Hi Ha) as [Hf _].
  assert (Hb : is_duplicate_of_any fromisoformat inc acc = Ok false).
  { apply Hf. apply Forall_forall. intros a Ha'.
    eapply StronglySorted_app_1_elem_of; [exact Hd|done|by left]. }
  rewrite Hb. simpl. rewrite IH.
  - by rewrite <- app_assoc.
  - done.
  - apply Forall_app. split; [done|]. by constructor.
  - by rewrite <- app_assoc.
Qed.

(** X18: on a batch of validated records fetched from the store (aware
    timestamps, equal ones allowed) [remove_duplicates] returns. The
    canonical list is a sublist of the batch put in time order, so it is in
    time order itself; no record of it is a duplicate of a record that
    comes before it; every record of the batch is a duplicate of a canonical
    record; and the canonical list is a fixed point: deduplicated again, it
    comes back unchanged. *)
Theorem remove_duplicates_canonical (now_ : Z) (l : list incident) :
  Forall (fun inc => is_valid_incident fromisoformat now_ inc = Ok true
                     /\ aware inc) l ->
  exists canonical,
    remove_duplicates fromisoformat l = Ok canonical
    /\ canonical `sublist_of` stable_sort earlier l
    /\ StronglySorted not_later canonical
    /\ StronglySorted distinct_event canonical
    /\ (forall x, x ∈ l ->
        exists c, c ∈ canonical
          /\ are_incidents_duplicate fromisoformat x c = Ok true)
    /\ remove_duplicates fromisoformat canonical = Ok canonical.
Proof.
  intros Hall.
  assert (Hv : Forall (fun x => is_valid_incident fromisoformat now_ x
                                = Ok true) l)
    by (eapply Forall_impl; [exact Hall | by intros ? [? ?]]).
  assert (Ha : Forall aware l)
    by (eapply Forall_impl; [exact Hall | by intros ? [? ?]]).
  rewrite (remove_duplicates_aware fromisoformat l Ha).
  destruct (dedup_loop_canonical now_ (stable_sort earlier l) [])
    as (out & Hout & Hsub & _ & Hdis & Hcov).
  { by rewrite stable_sort_Permutation. }
  { constructor. }
  { constructor. }
  simpl in Hsub.
  assert (Hsorted : StronglySorted not_later out).
  { eapply StronglySorted_sublist; [exact Hsub|].
    by apply stable_sort_not_later. }
  assert (Hin : forall x, x ∈ out -> x ∈ l).
  { intros x Hx. rewrite <- (stable_sort_Permutation earlier l).
    by eapply elem_of_sublist. }
  exists out. split; [done|]. split; [done|]. split; [done|].
  split; [done|]. split.
  { intros x Hx. apply Hcov. by rewrite stable_sort_Permutation. }
  assert (Hv' : Forall (fun x => is_valid_incident fromisoformat now_ x
                                 = Ok true) out).
  { apply Forall_forall. intros x Hx. eapply Forall_forall in Hv; [exact Hv|].
    by apply Hin. }
  assert (Ha' : Forall aware out).
  { apply Forall_forall. intros x Hx. eapply Forall_forall in Ha; [exact Ha|].
    by apply Hin. }
  rewrite (remove_duplicates_aware fromisoformat out Ha').
  rewrite (stable_sort_sorted out Hsorted).
  by apply (dedup_loop_fixed now_ out []).
Qed.


(** ** No record is starved *)

Lemma filter_valid_complete now_ (l f : list incident) x :
  filter_valid fromisoformat now_ l = Ok f ->
  x ∈ l -> is_valid_incident fromisoformat now_ x = Ok true -> x ∈ f.
Proof.
  revert f. induction l as [|inc l IH]; simpl; intros f H Hx Hv.
  { by apply elem_of_nil in Hx. }
  apply bind_Ok_inv in H as (v & Hv' & H).
  apply bind_Ok_inv in H as (f' & Hf' & H). injection H as <-.
  apply elem_of_cons in Hx as [->|Hx].
  - rewrite Hv in Hv'. injection Hv' as <-. by left.
  - destruct v; [right|]; by apply IH.
Qed.

Lemma homogenize_incidents_complete (l : list incident) x :
  x ∈ l -> normalizable x = true ->
  exists h, homogenize_incident round6 x = Ok h
            /\ In h (fst (homogenize_incidents round6 l)).
Proof.
  intros Hx Hn. destruct (homogenize_incident_total round6 x Hn) as [h Hh].
  exists h. split; [done|].
  induction l as [|inc l IH]; [by apply elem_of_nil in Hx|].
  simpl. destruct (homogenize_incidents round6 l) as [hs lg]. simpl in IH.
  apply elem_of_cons in Hx as [<-|Hx].
  - rewrite Hh. by left.
  - destruct (homogenize_incident round6 inc); simpl; [right|]; by apply IH.
Qed.

(** X19: with the store reachable and no NULL description among the
    unprocessed rows, a row is flagged by the filter stage whenever its
    record passes validation, is one the Normalizer keeps, and has no
    duplicate among the other validated records of the batch. *)
Theorem filter_and_clean_data_flags_unique (e : env) (w : world)
    (r : Row.t) :
  let record := dict_of_row (db_utcoffset e) in
  db_up e = true ->
  (forall r', r' ∈ db w -> Row.processed r' = false ->
              Row.description r' <> None) ->
  r ∈ db w -> Row.processed r = false ->
  is_valid_incident fromisoformat (now e) (record r) = Ok true ->
  normalizable (record r) = true ->
  (forall r', r' ∈ db w -> Row.processed r' = false ->
              is_valid_incident fromisoformat (now e) (record r') = Ok true ->
              are_incidents_duplicate fromisoformat (record r) (record r')
              = Ok true ->
              record r' = record r) ->
  Row.set_processed r
  ∈ db (fst (filter_and_clean_data fromisoformat round6 e w)).
Proof.
  intros record Hup Hdesc Hr Hp Hv Hn Huniq.
  destruct (fetched_ok e w Hdesc) as (valid & dedup & Ev & Ed).
  destruct (filter_and_clean_data_through e w valid dedup Hup Ev Ed)
    as [Hdb _].
  simpl in Hdb. rewrite Hdb. clear Hdb.
  assert (Hfetched : record r ∈ fetched e w).
  { apply list_elem_of_In, in_map. apply list_elem_of_In.
    by apply elem_of_select_unprocessed. }
  pose proof (filter_valid_complete _ _ _ _ Ev Hfetched Hv) as Hvalid.
  assert (Hvs : Forall (fun inc =>
                   is_valid_incident fromisoformat (now e) inc = Ok true)
                  valid).
  { apply Forall_forall. intros x Hx. by eapply filter_valid_valid. }
  assert (Has : Forall aware valid).
  { apply Forall_forall. intros x Hx.
    apply (filter_valid_elem _ _ _ _ Ev) in Hx.
    apply list_elem_of_In, in_map_iff in Hx as (r' & <- & _).
    apply aware_dict_of_row. }
  pose proof Ed as Ed'.
  rewrite (remove_duplicates_aware fromisoformat valid Has) in Ed'.
  destruct (dedup_loop_canonical (now e) (stable_sort earlier valid) [])
    as (out & Hout & _ & _ & _ & Hcov).
  { by rewrite stable_sort_Permutation. }
  { constructor. }
  { constructor. }
  rewrite Hout in Ed'. injection Ed' as ->.
  destruct (Hcov (record r)) as (c & Hc & Hdup).
  { by rewrite stable_sort_Permutation. }
  assert (Hc' : c ∈ fetched e w).
  { apply (filter_valid_elem _ _ _ _ Ev).
    by apply (remove_duplicates_elem _ _ _ Ed). }
  assert (Hcv : is_valid_incident fromisoformat (now e) c = Ok true).
  { eapply Forall_forall in Hvs; [exact Hvs|].
    by apply (remove_duplicates_elem _ _ _ Ed). }
  apply list_elem_of_In, in_map_iff in Hc' as (r' & Hr' & Hin').
  apply list_elem_of_In in Hin'.
  unfold select_unprocessed, order_by_timestamp_desc in Hin'.
  rewrite stable_sort_Permutation, list_elem_of_filter in Hin'.
  destruct Hin' as [Hp' Hin'].
  fold record in Hr'. subst c.
  rewrite (Huniq r' Hin' Hp' Hcv Hdup) in Hc.
  destruct (homogenize_incidents_complete dedup (record r) Hc Hn)
    as (h & Hh & Hin).
  apply update_processed_marks; [done|].
  apply any_eq_elem.
  apply list_elem_of_In, in_map_iff. exists h. split; [|done].
  destruct (homogenize_incident_inv _ _ _ Hh)
    as (ty & rd & rs & _ & _ & _ & _ & _ & Hid).
  by rewrite Hid.
Qed.

End Stages.

(** * More concrete runs *)

(** X3 (witness): record L is dated 300 s after event A; it passes at a
    validation 600 s after A, and also at a validation at the time of A,
    300 s before its own date. *)
Lemma is_valid_incident_earlier_witness :
  (is_valid_incident no_iso (now env1) inc_L = Ok true
   /\ seconds 0 <= now env1)
  /\ is_valid_incident no_iso (seconds 0) inc_L = Ok true.
Proof.
  split; [split; [vm_compute; reflexivity | vm_compute; discriminate]|].
  apply (is_valid_incident_earlier no_iso (now env1) (seconds 0) inc_L);
    [vm_compute; reflexivity | vm_compute; discriminate].
Defined.

(** X4 (witness): record A, with the rounding that keeps the coordinate. *)
Lemma homogenize_incident_idempotent_witness :
  (forall x, round_id (round_id x) = round_id x)
  /\ exists h,
       homogenize_incident round_id inc_A = Ok h
       /\ homogenize_incident round_id h = Ok h.
Proof.
  split; [reflexivity|].
  eexists. split; [vm_compute; reflexivity|].
  apply (homogenize_incident_idempotent round_id inc_A);
    [reflexivity | vm_compute; reflexivity].
Defined.

(** X5 (witness): record B, of raw severity 47. *)
Lemma homogenize_incident_range_witness :
  exists h,
    homogenize_incident round_id inc_B = Ok h
    /\ exists tag sev d st ci,
         incident_type h = Val tag /\ tag ∈ type_tags
         /\ severity h = Val sev /\ sev <= 10
         /\ (forall raw, severity inc_B = Val raw -> raw <= 10 -> sev = raw)
         /\ description h = Val d /\ Str.strip d = d
         /\ street h = Val st /\ Str.strip st = st
         /\ city h = Val ci /\ Str.strip ci = ci.
Proof.
  eexists. split; [vm_compute; reflexivity|].
  apply (homogenize_incident_range round_id inc_B).
  vm_compute. reflexivity.
Defined.

(** X7 (witness): in the store of A and its duplicate B, the row flagged by
    the first run is A. *)
Lemma filter_and_clean_data_flags_witness :
  let w := world0 [row_A; row_B] in
  (db w !! 0%nat = Some row_A
   /\ db (fst (filter_and_clean_data no_iso round_id env1 w)) !! 0%nat
      = Some (Row.set_processed row_A)
   /\ Row.processed row_A = false
   /\ Row.processed (Row.set_processed row_A) = true)
  /\ exists r0 valid canonical h,
       r0 ∈ db w /\ Row.processed r0 = false
       /\ Row.incident_id r0 = Row.incident_id row_A
       /\ is_valid_incident no_iso (now env1)
            (dict_of_row (db_utcoffset env1) r0) = Ok true
       /\ filter_valid no_iso (now env1) (fetched env1 w) = Ok valid
       /\ remove_duplicates no_iso valid = Ok canonical
       /\ dict_of_row (db_utcoffset env1) r0 ∈ canonical
       /\ homogenize_incident round_id (dict_of_row (db_utcoffset env1) r0)
          = Ok h.
Proof.
  intros w.
  split; [repeat split; vm_compute; reflexivity|].
  apply (filter_and_clean_data_flags no_iso round_id env1 w 0 row_A
           (Row.set_processed row_A)); vm_compute; reflexivity.
Defined.

(** X9 (witness): with row D, whose description is NULL, in the store, two
    runs in a row flag nothing, not even row A. *)
Lemma null_description_blocks_runs_witness :
  let w := world0 [row_A; row_D] in
  let w' := runs no_iso round_id plain_format [env1; env2] w in
  (row_D ∈ db w /\ Row.processed row_D = false /\ null_description row_D)
  /\ db w' = db w /\ files w' = files w /\ redis w' = redis w
  /\ ([env1; env2] <> [] -> last (log w') = Some (INFO, "No data to process")).
Proof.
  intros w w'.
  assert (Hin : row_D ∈ db w) by (right; left).
  assert (Hn : null_description row_D).
  { split; [reflexivity|]. split; [discriminate|]. split; [discriminate|].
    vm_compute. reflexivity. }
  split; [done|].
  exact (null_description_blocks_runs no_iso round_id plain_format
           [env1; env2] w row_D Hin eq_refl Hn).
Defined.

(** X10 (witness): the store of A and B. *)
Lemma filter_and_clean_data_goes_through_witness :
  let w := world0 [row_A; row_B] in
  (db_up env1 = true
   /\ forall r, r ∈ db w -> Row.processed r = false ->
                Row.description r <> None)
  /\ exists valid canonical,
       filter_valid no_iso (now env1) (fetched env1 w) = Ok valid
       /\ remove_duplicates no_iso valid = Ok canonical
       /\ let hs := fst (homogenize_incidents round_id canonical) in
          db (fst (filter_and_clean_data no_iso round_id env1 w))
          = update_processed (map (fun inc => get (incident_id inc)) hs)
              (db w)
          /\ snd (filter_and_clean_data no_iso round_id env1 w)
             = (len (unprocessed (db w)), len hs).
Proof.
  intros w.
  assert (Hd : forall r, r ∈ db w -> Row.processed r = false ->
                         Row.description r <> None).
  { intros r Hr _. simpl in Hr.
    repeat (apply elem_of_cons in Hr as [->|Hr]; [discriminate|]).
    by apply elem_of_nil in Hr. }
  split; [by split|].
  exact (filter_and_clean_data_goes_through no_iso round_id env1 w
           eq_refl Hd).
Defined.

(** X12 (witness): the export of a store that holds the processed row Q. *)
Lemma export_for_pig_processing_file_witness :
  let w := world0 [row_Q] in
  let w' := fst (export_for_pig_processing plain_format env1 w) in
  let path := snd (export_for_pig_processing plain_format env1 w) in
  (export_for_pig_processing plain_format env1 w = (w', path)
   /\ path <> "")
  /\ path = "/app/data/processed_incidents_600.csv"
  /\ files w' !! path = Some (to_csv plain_format [row_Q])
  /\ db w' = db w /\ redis w' = redis w.
Proof.
  intros w w' path.
  assert (H1 : export_for_pig_processing plain_format env1 w = (w', path))
    by apply surjective_pairing.
  assert (H2 : path <> "") by (vm_compute; discriminate).
  split; [done|].
  destruct (export_for_pig_processing_file plain_format env1 w w' path H1 H2)
    as (Hp & Hf & _ & _ & _ & _ & _ & Hdb & Hr).
  split; [exact Hp|]. split; [|done].
  rewrite Hf. apply lookup_insert_eq.
Defined.


(** X18 (witness): the batch T, A, B, where T and A bear the same
    timestamp. *)
Lemma remove_duplicates_canonical_witness :
  Forall (fun inc => is_valid_incident no_iso (now env1) inc = Ok true
                     /\ aware inc) [inc_T; inc_A; inc_B]
  /\ exists canonical,
       remove_duplicates no_iso [inc_T; inc_A; inc_B] = Ok canonical
       /\ canonical `sublist_of` stable_sort earlier [inc_T; inc_A; inc_B]
       /\ StronglySorted not_later canonical
       /\ StronglySorted (distinct_event no_iso) canonical
       /\ (forall x, x ∈ [inc_T; inc_A; inc_B] ->
           exists c, c ∈ canonical
             /\ are_incidents_duplicate no_iso x c = Ok true)
       /\ remove_duplicates no_iso canonical = Ok canonical.
Proof.
  assert (H : Forall (fun inc =>
                        is_valid_incident no_iso (now env1) inc = Ok true
                        /\ aware inc) [inc_T; inc_A; inc_B]).
  { repeat constructor; try (vm_compute; reflexivity);
      apply aware_dict_of_row. }
  split; [exact H|].
  exact (remove_duplicates_canonical no_iso (now env1) _ H).
Defined.

(** X19 (witness): in the store of A and N, two records of different
    types, row A is flagged. *)
Lemma filter_and_clean_data_flags_unique_witness :
  let w := world0 [row_A; row_N] in
  let record := dict_of_row (db_utcoffset env1) in
  (db_up env1 = true
   /\ (forall r', r' ∈ db w -> Row.processed r' = false ->
                  Row.description r' <> None)
   /\ row_A ∈ db w /\ Row.processed row_A = false
   /\ is_valid_incident no_iso (now env1) (record row_A) = Ok true
   /\ normalizable (record row_A) = true
   /\ (forall r', r' ∈ db w -> Row.processed r' = false ->
         is_valid_incident no_iso (now env1) (record r') = Ok true ->
         are_incidents_duplicate no_iso (record row_A) (record r') = Ok true ->
         record r' = record row_A))
  /\ Row.set_processed row_A
     ∈ db (fst (filter_and_clean_data no_iso round_id env1 w)).
Proof.
  intros w record.
  assert (Hd : forall r', r' ∈ db w -> Row.processed r' = false ->
                          Row.description r' <> None).
  { intros r Hr _. simpl in Hr.
    repeat (apply elem_of_cons in Hr as [->|Hr]; [discriminate|]).
    by apply elem_of_nil in Hr. }
  assert (Hin : row_A ∈ db w) by left.
  assert (Hv : is_valid_incident no_iso (now env1) (record row_A) = Ok true)
    by (vm_compute; reflexivity).
  assert (Hu : forall r', r' ∈ db w -> Row.processed r' = false ->
                 is_valid_incident no_iso (now env1) (record r') = Ok true ->
                 are_incidents_duplicate no_iso (record row_A) (record r')
                 = Ok true ->
                 record r' = record row_A).
  { intros r Hr _ _ Hdup. simpl in Hr.
    apply elem_of_cons in Hr as [->|Hr]; [done|].
    apply elem_of_cons in Hr as [->|Hr]; [|by apply elem_of_nil in Hr].
    vm_compute in Hdup. discriminate. }
  split; [repeat split; done|].
  exact (filter_and_clean_data_flags_unique no_iso round_id env1 w row_A
           eq_refl Hd Hin eq_refl Hv eq_refl Hu).
Defined.
